(** * Deterministic arterial input function: a shallow embedding of
      [AIF_deterministic.py] and the properties of its stages.

    The Python module works on numpy arrays.  An array is modelled the way
    numpy stores it: a shape and a flat buffer in C order.  The element type
    is a parameter, as the numpy dtype is; the instance the pipeline runs on
    is IEEE-754 binary64 ([float64] below, on the executable specification
    of the Standard Library). *)

From Stdlib Require Import List ZArith Bool String Ascii Lia.
From Stdlib Require Import SpecFloat Sorted Permutation.
Import ListNotations.

Set Implicit Arguments.
Open Scope Z_scope.

(** ** Python outcomes *)

Inductive exn : Type :=
| AssertionError
| ValueError
| IndexError
| KeyError
| NameError.

Inductive py (A : Type) : Type :=
| Ok (a : A)
| Raise (e : exn).

Arguments Ok {A} a.
Arguments Raise {A} e.

Definition bind {A B : Type} (m : py A) (k : A -> py B) : py B :=
  match m with
  | Ok a => k a
  | Raise e => Raise e
  end.

Declare Scope py_scope.
Delimit Scope py_scope with py.
Notation "x <- m ;; k" := (bind m (fun x => k))
  (at level 100, m at next level, right associativity) : py_scope.
Notation "' p <- m ;; k" := (bind m (fun p => k))
  (at level 100, p pattern, m at next level, right associativity) : py_scope.

(** [assert cond] of Python. *)
Definition py_assert (cond : bool) : py unit :=
  if cond then Ok tt else Raise AssertionError.

(** [try: body except ValueError: handler]. *)
Definition try_except_ValueError {A : Type} (body : py A) (handler : py A) : py A :=
  match body with
  | Raise ValueError => handler
  | other => other
  end.

Definition raises {A : Type} (m : py A) : Prop := exists e, m = Raise e.

(** ** Numbers *)

(** The operations the module uses on array elements. [nfloor] is the
    integer part numpy takes of a fractional index. *)
Class Number (A : Type) : Type := {
  nofZ : Z -> A;
  nadd : A -> A -> A;
  nsub : A -> A -> A;
  nmul : A -> A -> A;
  ndiv : A -> A -> A;
  nltb : A -> A -> bool;
  nleb : A -> A -> bool;
  neqb : A -> A -> bool;
  nfloor : A -> Z
}.

Definition nzero {A} `{Number A} : A := nofZ 0.
(** [x != x], the NaN test. *)
Definition nisnan {A} `{Number A} (x : A) : bool := negb (neqb x x).
Definition ngtb {A} `{Number A} (x y : A) : bool := nltb y x.

(** *** binary64 *)

Definition float64 : Type := spec_float.

Module F64.
Definition prec : Z := 53.
Definition emax : Z := 1024.
Definition of_Z (n : Z) : float64 := binary_normalize prec emax n 0 false.
Definition add : float64 -> float64 -> float64 := SFadd prec emax.
Definition sub : float64 -> float64 -> float64 := SFsub prec emax.
Definition mul : float64 -> float64 -> float64 := SFmul prec emax.
Definition div : float64 -> float64 -> float64 := SFdiv prec emax.
Definition floor (x : float64) : Z :=
  match x with
  | S754_finite s m e =>
      let sm := if s then Z.neg m else Z.pos m in
      if 0 <=? e then sm * 2 ^ e else sm / 2 ^ (- e)
  | _ => 0
  end.
Definition nan : float64 := S754_nan.
Definition zero : float64 := S754_zero false.
End F64.

#[export] Instance float64_Number : Number float64 := {
  nofZ := F64.of_Z;
  nadd := F64.add;
  nsub := F64.sub;
  nmul := F64.mul;
  ndiv := F64.div;
  nltb := SFltb;
  nleb := SFleb;
  neqb := SFeqb;
  nfloor := F64.floor
}.

(** ** Strings: [str.upper] and [str.strip] on ASCII text *)

Definition is_space (c : ascii) : bool :=
  let n := nat_of_ascii c in
  ((9 <=? n) && (n <=? 13) || (28 <=? n) && (n <=? 32))%nat.

Definition upper_char (c : ascii) : ascii :=
  let n := nat_of_ascii c in
  if ((97 <=? n) && (n <=? 122))%nat then ascii_of_nat (n - 32) else c.

Fixpoint upper (s : string) : string :=
  match s with
  | EmptyString => EmptyString
  | String c s' => String (upper_char c) (upper s')
  end.

Fixpoint lstrip (s : string) : string :=
  match s with
  | EmptyString => EmptyString
  | String c s' => if is_space c then lstrip s' else s
  end.

Fixpoint rstrip (s : string) : string :=
  match s with
  | EmptyString => EmptyString
  | String c s' =>
      match rstrip s' with
      | EmptyString => if is_space c then EmptyString else String c EmptyString
      | r => String c r
      end
  end.

Definition strip (s : string) : string := rstrip (lstrip s).

(** Text on which [upper] and [strip] above are those of Python: every
    character is ASCII. *)
Definition ascii_text (s : string) : bool :=
  forallb (fun c => (nat_of_ascii c <? 128)%nat) (list_ascii_of_string s).

(** ** Arrays *)

(** A 3-D array [(Z, Y, X)] and a 4-D array [(T, Z, Y, X)], the time series:
    [frames] holds one flat buffer per time sample and [timeline] the
    acquisition times that an [imagedata] series carries. *)
Record vol (A : Type) : Type := Vol {
  vshape : Z * Z * Z;
  vdata : list A
}.

Record series (A : Type) : Type := Series {
  spatial : Z * Z * Z;
  timeline : list A;
  frames : list (list A)
}.

Definition nvoxels (sh : Z * Z * Z) : nat :=
  let '(nz, ny, nx) := sh in Z.to_nat (nz * ny * nx).

Definition vol_map {A B : Type} (f : A -> B) (v : vol A) : vol B :=
  Vol (vshape v) (map f (vdata v)).

Definition series_len {A : Type} (im : series A) : Z := Z.of_nat (List.length (frames im)).

(** [zip_with f xs ys]: numpy element-wise operation on buffers of one shape. *)
Fixpoint zip_with {A B C : Type} (f : A -> B -> C) (xs : list A) (ys : list B) : list C :=
  match xs, ys with
  | x :: xs', y :: ys' => f x y :: zip_with f xs' ys'
  | _, _ => []
  end.

(** [l[:stop]] for a Python integer [stop]. *)
Definition slice_to {A : Type} (stop : Z) (l : list A) : list A :=
  let n := Z.of_nat (List.length l) in
  let stop' := if stop <? 0 then Z.max 0 (stop + n) else Z.min stop n in
  firstn (Z.to_nat stop') l.

(** [np.sum(fs, axis=0)] over frames of [n] voxels: element-wise, in time order,
    from the additive identity. *)
Definition sum_axis0 {A} `{Number A} (n : nat) (fs : list (list A)) : list A :=
  fold_left (zip_with nadd) fs (repeat nzero n).

(** [np.mean(fs, axis=0)]: an empty [fs] divides zero by zero. *)
Definition mean_axis0 {A} `{Number A} (n : nat) (fs : list (list A)) : list A :=
  map (fun s => ndiv s (nofZ (Z.of_nat (List.length fs)))) (sum_axis0 n fs).

(** ** Concentration mapping *)

(** [relim[relim < 0] = 0]. *)
Definition clamp_negative {A} `{Number A} (x : A) : A :=
  if nltb x nzero then nzero else x.

(** One turn of the loop of [relative_concentration_map]: [z] is [relim[i]] on
    entry (zeros), [fr] is [im[i]]. *)
Definition relative_frame {A} `{Number A}
    (option : string) (k : A) (im0 : list A) (z fr : list A) : list A :=
  if String.eqb (strip (upper option)) "ABS" then
    zip_with (fun x m => nmul k (nsub x m)) fr im0
  else if String.eqb (strip (upper option)) "REL" then
    zip_with (fun x m => ndiv (nmul k (nsub x m)) m) fr im0
  else z.

(** [im[:baseline]] on an [imagedata] series: a negative [baseline] that
    reaches back to the first sample or beyond it raises IndexError, where
    a numpy array would give an empty slice. *)
Definition series_slice_to {A : Type} (baseline : Z) (im : series A) : py (list (list A)) :=
  if (baseline <? 0) && (baseline <=? - series_len im) then Raise IndexError
  else Ok (slice_to baseline (frames im)).

Definition relative_concentration_map {A} `{Number A}
    (im : series A) (baseline : Z) (k : A) (option : string) : py (series A) :=
  let n := nvoxels (spatial im) in
  let relim := map (fun _ => repeat nzero n) (frames im) in
  (window <- series_slice_to baseline im ;;
   let im0 := mean_axis0 n window in
   let relim := zip_with (relative_frame option k im0) relim (frames im) in
   let relim := map (map clamp_negative) relim in
   Ok (Series (spatial im) (timeline im) relim))%py.

(** ** Candidate selection *)

(** Order of [np.sort]: ascending, NaN last. *)
Definition sort_lt {A} `{Number A} (x y : A) : bool :=
  nltb x y || (nisnan y && negb (nisnan x)).

Fixpoint insert_sorted {A} `{Number A} (x : A) (l : list A) : list A :=
  match l with
  | [] => [x]
  | y :: l' => if sort_lt y x then y :: insert_sorted x l' else x :: l
  end.

Definition np_sort {A} `{Number A} (l : list A) : list A :=
  fold_right insert_sorted [] l.

(** [np.quantile(a, q)] with the default linear method, as numpy computes
    it. The sorted data is read at the fractional index [(n - 1) * q]: at
    its integer part and at the next index (both the last index when the
    fractional index reaches it or is NaN, both the first when it is
    negative), and the two values are joined by [_lerp]. Data holding a NaN
    gives NaN, and so does empty data. *)
Definition lerp {A} `{Number A} (a b t : A) : A :=
  let diff_b_a := nsub b a in
  if nleb (ndiv (nofZ 1) (nofZ 2)) t
  then nsub b (nmul diff_b_a (nsub (nofZ 1) t))
  else nadd a (nmul diff_b_a t).

Definition np_quantile {A} `{Number A} (a : list A) (q : A) : A :=
  let arr := np_sort a in
  let n := Z.of_nat (List.length arr) in
  let nan := ndiv nzero nzero in
  if (n =? 0) || existsb nisnan arr then nan
  else
    let virtual_index := nmul (nofZ (n - 1)) q in
    let above := nleb (nofZ (n - 1)) virtual_index || nisnan virtual_index in
    let below := nltb virtual_index nzero in
    let previous_index :=
      if above then -1 else if below then 0 else nfloor virtual_index in
    let next_index :=
      if above then -1 else if below then 0 else nfloor virtual_index + 1 in
    let item i := nth (Z.to_nat (if i <? 0 then i + n else i)) arr nan in
    let gamma := nsub virtual_index (nofZ previous_index) in
    lerp (item previous_index) (item next_index) gamma.

(** [np.percentile(a, q)] is the quantile at [q / 100]. *)
Definition np_percentile {A} `{Number A} (a : list A) (q : A) : A :=
  np_quantile a (ndiv q (nofZ 100)).

Definition select_brightest_voxels {A} `{Number A}
    (dce : series A) (timesteps : Z) (percentile : A) : py (vol bool) :=
  (_ <- py_assert ((0 <? timesteps) && (timesteps <? series_len dce)) ;;
   _ <- py_assert (nltb nzero percentile && nltb percentile (nofZ 100)) ;;
   let dce_sum :=
     map (fun s => ndiv s (nofZ timesteps))
         (sum_axis0 (nvoxels (spatial dce)) (slice_to timesteps (frames dce))) in
   let dce_pct := np_percentile dce_sum (nsub (nofZ 100) percentile) in
   Ok (Vol (spatial dce) (map (fun v => ngtb v dce_pct) dce_sum)))%py.

Definition count_nonzero (m : vol bool) : nat :=
  List.length (filter (fun b => b) (vdata m)).

(** *** Binary morphology of [scipy.ndimage] *)

Definition coord : Type := (Z * Z * Z)%type.

Definition in_bounds (sh : Z * Z * Z) (p : coord) : bool :=
  let '(nz, ny, nx) := sh in
  let '(z, y, x) := p in
  (0 <=? z) && (z <? nz) && (0 <=? y) && (y <? ny) && (0 <=? x) && (x <? nx).

(** C-order position of a voxel and its inverse ([np.unravel_index]). *)
Definition ravel (sh : Z * Z * Z) (p : coord) : Z :=
  let '(_, ny, nx) := sh in
  let '(z, y, x) := p in
  (z * ny + y) * nx + x.

Definition unravel (sh : Z * Z * Z) (i : Z) : coord :=
  let '(_, ny, nx) := sh in
  (i / nx / ny, (i / nx) mod ny, i mod nx).

(** [v[p]], reading [border] outside the array. *)
Definition get3 {A : Type} (border : A) (v : vol A) (p : coord) : A :=
  if in_bounds (vshape v) p
  then nth (Z.to_nat (ravel (vshape v) p)) (vdata v) border
  else border.

Definition tabulate3 {A : Type} (sh : Z * Z * Z) (f : coord -> A) : vol A :=
  Vol sh (map (fun i => f (unravel sh (Z.of_nat i))) (seq 0 (nvoxels sh))).

Definition shift (p d : coord) : coord :=
  let '(z, y, x) := p in
  let '(dz, dy, dx) := d in
  (z + dz, y + dy, x + dx).

Definition unshift (p d : coord) : coord :=
  let '(z, y, x) := p in
  let '(dz, dy, dx) := d in
  (z - dz, y - dy, x - dx).

(** A structuring element: the offsets from the centre at which it is set. *)
Definition structure : Type := list coord.

Definition offsets3 : list coord :=
  flat_map (fun dz => flat_map (fun dy => map (fun dx => (dz, dy, dx)) [-1; 0; 1]) [-1; 0; 1])
           [-1; 0; 1].

(** [scipy.ndimage.generate_binary_structure(3, connectivity)]: the offsets
    whose city-block distance to the centre is at most [connectivity]. *)
Definition generate_binary_structure (connectivity : Z) : structure :=
  filter (fun '(dz, dy, dx) => Z.abs dz + Z.abs dy + Z.abs dx <=? connectivity) offsets3.

(** [skimage.morphology.cube(3)]: all 27 offsets. *)
Definition cube3 : structure := offsets3.

(** [binary_erosion] and [binary_dilation] with [border_value=0], one iteration. *)
Definition binary_erosion (s : structure) (v : vol bool) : vol bool :=
  tabulate3 (vshape v) (fun p => forallb (fun d => get3 false v (shift p d)) s).

Definition binary_dilation (s : structure) (v : vol bool) : vol bool :=
  tabulate3 (vshape v) (fun p => existsb (fun d => get3 false v (unshift p d)) s).

(** [scipy.ndimage.binary_opening(input, structure)]. *)
Definition binary_opening (s : structure) (v : vol bool) : vol bool :=
  binary_dilation s (binary_erosion s v).

(** [binary_opening(voxels)]: no structure is passed, and scipy then
    generates one of connectivity one. *)
Definition select_binary_opening (voxels : vol bool) : vol bool :=
  binary_opening (generate_binary_structure 1) voxels.

(** ** Temporal peak alignment *)

(** [a[mask]]: the elements of a buffer under a boolean mask, in C order. *)
Fixpoint select {A : Type} (mask : list bool) (a : list A) : list A :=
  match mask, a with
  | true :: mask', x :: a' => x :: select mask' a'
  | false :: mask', _ :: a' => select mask' a'
  | _, _ => []
  end.

(** [a[mask] = vals]: [a] with the masked positions overwritten in order. *)
Fixpoint put_mask {A : Type} (mask : list bool) (vals a : list A) : list A :=
  match mask, a with
  | true :: mask', x :: a' =>
      match vals with
      | v :: vals' => v :: put_mask mask' vals' a'
      | [] => x :: put_mask mask' [] a'
      end
  | false :: mask', x :: a' => x :: put_mask mask' vals a'
  | _, _ => a
  end.

(** The columns of a row-major table: [columns rows] lists, for each position
    of a row, the values the rows hold there. *)
Fixpoint columns {A : Type} (rows : list (list A)) : list (list A) :=
  match rows with
  | [] => []
  | [r] => map (fun x => [x]) r
  | r :: rs => zip_with cons r (columns rs)
  end.

(** [np.argmax] of a 1-D sequence: the first index of the maximum; a NaN is
    maximal. [leb] and [isnan] are those of the element type. *)
Fixpoint argmax_from {A : Type} (leb : A -> A -> bool) (isnan : A -> bool)
    (best : A) (besti i : Z) (l : list A) : Z :=
  match l with
  | [] => besti
  | x :: l' =>
      if isnan best then besti
      else if negb (leb x best) then argmax_from leb isnan x i (i + 1) l'
      else argmax_from leb isnan best besti (i + 1) l'
  end.

Definition argmax {A} `{Number A} (l : list A) : Z :=
  match l with
  | [] => 0
  | x :: l' => argmax_from nleb nisnan x 0 1 l'
  end.

Definition argmax_Z (l : list Z) : Z :=
  match l with
  | [] => 0
  | x :: l' => argmax_from Z.leb (fun _ => false) x 0 1 l'
  end.

Definition zrange (n : Z) : list Z := map Z.of_nat (seq 0 (Z.to_nat n)).

Definition list_min (x : Z) (l : list Z) : Z := fold_left Z.min l x.
Definition list_max (x : Z) (l : list Z) : Z := fold_left Z.max l x.

(** [np.histogram(a, bins)] of integer samples, with no range given: [bins]
    equal bins between the least and the greatest sample (between 0 and 1 for
    no sample, half a unit either side of a single value), the last bin
    closed on the right. The bin edges are taken exactly. *)
Definition histogram_bin (lo hi bins v : Z) : Z :=
  if lo =? hi then bins / 2
  else Z.min (bins - 1) ((v - lo) * bins / (hi - lo)).

Definition np_histogram (a : list Z) (bins : Z) : list Z :=
  match a with
  | [] => map (fun _ => 0) (zrange bins)
  | x :: a' =>
      let lo := list_min x a' in
      let hi := list_max x a' in
      map (fun b => Z.of_nat (List.length (filter (fun v => histogram_bin lo hi bins v =? b) a)))
          (zrange bins)
  end.

(** [np.argmax(dce[:timesteps, mask], axis=0)]. *)
Definition peak_indices {A} `{Number A} (window : list (list A)) (mask : list bool) : list Z :=
  map argmax (columns (map (select mask) window)).

(** The boolean array [first_part] of [find_most_peak_values]. *)
Definition first_part_mask {A} `{Number A}
    (dce : series A) (mask : vol bool) (timesteps : Z) : list bool :=
  let window := slice_to timesteps (frames dce) in
  let peak_values := peak_indices window (vdata mask) in
  let one_part := timesteps in
  let first_part_1 := map (fun p => (0 <? p) && (p <? one_part)) peak_values in
  put_mask (vdata mask) first_part_1 (repeat false (nvoxels (spatial dce))).

(** [hist] of [find_most_peak_values]: the histogram, over [timesteps]
    bins, of the peak indices of the voxels of [first_part]. *)
Definition peak_histogram {A} `{Number A}
    (dce : series A) (mask : vol bool) (timesteps : Z) : list Z :=
  np_histogram (peak_indices (slice_to timesteps (frames dce))
                             (first_part_mask dce mask timesteps))
               timesteps.

(** [find_most_peak_values(dce, mask, timesteps)]; [None] stands for the pair
    [(None, None)]. An empty window fails in [np.argmax], a window length
    that is not positive in [np.histogram], and a [max_timestep] past the
    end of the series in [dce[max_timestep, mask]]. *)
Definition find_most_peak_values {A} `{Number A}
    (dce : series A) (mask : vol bool) (timesteps : Z) : py (option (Z * vol A)) :=
  let window := slice_to timesteps (frames dce) in
  match window with
  | [] => Raise ValueError
  | _ =>
      let one_part := timesteps in
      let first_part := first_part_mask dce mask timesteps in
      let peak_value := peak_indices window first_part in
      if one_part <=? 0 then Raise ValueError
      else
        let hist := np_histogram peak_value one_part in
        let max_timestep := argmax_Z hist in
        if (max_timestep =? 0) || (timesteps - 1 <=? max_timestep) then Ok None
        else
          match nth_error (frames dce) (Z.to_nat max_timestep) with
          | None => Raise IndexError
          | Some fr =>
              let retain_voxels := repeat nzero (nvoxels (spatial dce)) in
              Ok (Some (max_timestep,
                        Vol (spatial dce)
                            (put_mask (vdata mask) (select (vdata mask) fr) retain_voxels)))
          end
  end.

(** ** Region extraction *)

(** What the module reads of a [skimage.measure] region: [regionprops]
    lists the labelled components in label order, from label 1; label 0,
    the background, has no entry. *)
Record region : Type := Region {
  label : Z;
  area : Z;
  convex_image : vol bool;
  bbox : (Z * Z * Z) * (Z * Z * Z)
}.

Definition enumerate {A : Type} (l : list A) : list (Z * A) :=
  combine (zrange (Z.of_nat (List.length l))) l.

Definition find_promising_objects (regions : list region) (area_threshold : Z)
    : list (vol bool) * list ((Z * Z * Z) * (Z * Z * Z)) * list Z :=
  let kept :=
    filter (fun '(num, x) => negb (num =? 0) && (area_threshold <? area x))
           (enumerate regions) in
  (map (fun '(_, x) => convex_image x) kept,
   map (fun '(_, x) => bbox x) kept,
   map fst kept).

(** ** Curve fitting, refinement and the orchestrator *)

(** What the module reads of a [scipy.optimize.OptimizeResult]. *)
Record fit_result (A : Type) : Type := FitResult {
  cost : A;
  fit_x : list A
}.

(** The library calls of [find_deterministic_aif] that are not modelled
    above, and the free name [result_path] that its last lines read.
    [least_squares timeline y] is [scipy.optimize.least_squares] on
    [parker_cost_function] with the fixed start, bounds, scales and
    tolerances of [estimate_parkers_model]; it raises [ValueError] when the
    residuals are not finite at the start. [savefig timeline Cb] stands for
    the four [plt] lines that draw and save the curve. *)
Record externals (A : Type) : Type := Externals {
  least_squares : list A -> list A -> py (fit_result A);
  skimage_label : vol bool -> vol Z;
  skimage_regionprops : vol Z -> list region;
  skimage_erosion : vol Z -> structure -> vol Z;
  skimage_dilation : vol Z -> structure -> vol Z;
  np_std_where : list A -> list bool -> A;
  skimage_flood : vol A -> coord -> A -> vol bool;
  kmeans_fit_predict : list (list A) -> Z -> py (list Z);
  savefig : list A -> list A -> py unit
}.

(** The three costs of the diagnostic row [cost_dict]. *)
Record cost_row (A : Type) : Type := CostRow {
  row_cost : A;
  cost_after_dilation : A;
  cost_after_region_growing : A
}.

(** The two refinement attempts: the mask and the running cost after each. *)
Record refinement (A : Type) : Type := Refinement {
  mask_after_dilation : vol Z;
  refined_cost_after_dilation : A;
  mask_after_region_growing : vol Z;
  refined_cost_after_region_growing : A
}.

Definition b2z (b : bool) : Z := if b then 1 else 0.

Fixpoint set_nth {A : Type} (n : nat) (x : A) (l : list A) : list A :=
  match l, n with
  | [], _ => []
  | _ :: l', O => x :: l'
  | y :: l', S n' => y :: set_nth n' x l'
  end.

Section Pipeline.
Context {A : Type} `{Number A} (lib : externals A).

(** [max(measured)], the builtin. *)
Definition py_max (l : list A) : py A :=
  match l with
  | [] => Raise ValueError
  | x :: l' => Ok (fold_left (fun m v => if nltb m v then v else m) l' x)
  end.

Definition estimate_parkers_model (measured timeline : list A) : py (fit_result A) :=
  (norm_factor <- py_max measured ;;
   let y := map (fun v => ndiv v norm_factor) measured in
   least_squares lib timeline y)%py.

Definition multi_dil (im : vol Z) (num : Z) (element : structure) : vol Z :=
  Nat.iter (Z.to_nat num) (fun im => skimage_dilation lib im element) im.

Definition multi_ero (im : vol Z) (num : Z) (element : structure) : vol Z :=
  Nat.iter (Z.to_nat num) (fun im => skimage_erosion lib im element) im.

(** [np.max] of a buffer: a NaN propagates. *)
Definition np_max (x : A) (l : list A) : A :=
  fold_left (fun m v => if nisnan m then m else if nisnan v then v
                        else if nltb m v then v else m) l x.

Fixpoint index_of (p : A -> bool) (i : Z) (l : list A) : option Z :=
  match l with
  | [] => None
  | x :: l' => if p x then Some i else index_of p (i + 1) l'
  end.

(** The first voxel, in C order, that holds the maximum. *)
Definition find_brightest_voxel (dce : vol A) : py coord :=
  match vdata dce with
  | [] => Raise ValueError
  | x :: l =>
      match index_of (fun v => neqb v (np_max x l)) 0 (vdata dce) with
      | Some i => Ok (unravel (vshape dce) i)
      | None => Raise IndexError
      end
  end.

(** [np.sum(dce, axis=(1,2,3), where=w) / count]: one mean per time sample. *)
Definition masked_mean_curve (dce : series A) (w : list bool) (count : Z) : list A :=
  map (fun fr => ndiv (fold_left nadd (select w fr) nzero) (nofZ count)) (frames dce).

Definition count_nonzero_Z (m : vol Z) : Z :=
  Z.of_nat (List.length (filter (fun v => negb (v =? 0)) (vdata m))).

Definition fit_mask (dce_rel : series A) (half : Z) (w : list bool) (count : Z)
    : py (fit_result A) :=
  let tc := masked_mean_curve dce_rel w count in
  estimate_parkers_model (slice_to half tc)
    (map (fun t => ndiv t (nofZ 60)) (slice_to half (timeline dce_rel))).

(** The fitting loop over [list_of_index]: the column [df['cost']]; a row
    that was not fitted holds NaN ([None]). *)
Fixpoint fit_candidates (dce_rel : series A) (label_im : vol Z) (half : Z)
    (list_of_index : list Z) (df_cost : list (option A)) : py (list (option A)) :=
  match list_of_index with
  | [] => Ok df_cost
  | x :: rest =>
      let w := map (fun l => l =? x + 1) (vdata label_im) in
      (solution <- fit_mask dce_rel half w (Z.of_nat (List.length (filter (fun b => b) w))) ;;
       fit_candidates dce_rel label_im half rest
         (set_nth (Z.to_nat x) (Some (cost solution)) df_cost))%py
  end.

(** [df['cost'].idxmin()] and [df['cost'].min()]: NaN is skipped, the first
    minimum wins, and a column without a number raises. *)
Definition skipna (c : option A) : option A :=
  match c with
  | Some v => if nisnan v then None else Some v
  | None => None
  end.

Fixpoint nanargmin_from (best : A) (besti i : Z) (l : list (option A)) : Z * A :=
  match l with
  | [] => (besti, best)
  | c :: l' =>
      match skipna c with
      | Some v =>
          if nltb v best then nanargmin_from v i (i + 1) l'
          else nanargmin_from best besti (i + 1) l'
      | None => nanargmin_from best besti (i + 1) l'
      end
  end.

Fixpoint nanargmin (i : Z) (l : list (option A)) : option (Z * A) :=
  match l with
  | [] => None
  | c :: l' =>
      match skipna c with
      | Some v => Some (nanargmin_from v i (i + 1) l')
      | None => nanargmin (i + 1) l'
      end
  end.

(** Step 5, erosion and dilation. [df_cost_min] is [df['cost'].min()]. *)
Definition erosion_dilation_stage (dce_rel : series A) (half : Z)
    (mask : vol Z) (df_cost_min : A) : py (vol Z * A) :=
  let multi_eroded := multi_ero mask 1 cube3 in
  let multi_dilated := multi_dil multi_eroded 1 cube3 in
  try_except_ValueError
    (solution <- fit_mask dce_rel half (map (fun v => v =? 1) (vdata multi_dilated))
                   (count_nonzero_Z multi_dilated) ;;
     if nltb (cost solution) df_cost_min
     then Ok (multi_dilated, cost solution)
     else Ok (mask, df_cost_min))%py
    (Ok (mask, df_cost_min)).

(** The flood-filled region [m] of step 6. *)
Definition grow_region (dce_rel : series A) (mask : vol Z) : py (vol bool) :=
  let sh := spatial dce_rel in
  let weights := map nofZ (vdata mask) in
  let _sum :=
    map (fun s => ndiv s (nofZ 10))
        (sum_axis0 (nvoxels sh)
           (map (fun fr => zip_with nmul fr weights) (slice_to 10 (frames dce_rel)))) in
  (seed_point <- find_brightest_voxel (Vol sh _sum) ;;
   let _sum_in_mask := select (map (fun v => v =? 1) (vdata mask)) _sum in
   let brightest_intensity := get3 nzero (Vol sh _sum) seed_point in
   let _quantile := np_quantile _sum_in_mask (ndiv (nofZ 8) (nofZ 10)) in
   let w := map (fun v => ngtb v _quantile) _sum_in_mask in
   let _mean :=
     ndiv (fold_left nadd (select w _sum_in_mask) nzero)
          (nofZ (Z.of_nat (List.length (filter (fun b => b) w)))) in
   let _std := np_std_where lib _sum_in_mask w in
   let threshold := nsub _mean _std in
   let tolerance := nsub brightest_intensity threshold in
   Ok (skimage_flood lib (Vol sh _sum) seed_point tolerance))%py.

(** Step 6, region growing. *)
Definition region_growing_stage (dce_rel : series A) (half : Z)
    (mask : vol Z) (cost_after_dilation : A) : py (vol Z * A) :=
  (m <- grow_region dce_rel mask ;;
   solution <- fit_mask dce_rel half (vdata m) (Z.of_nat (count_nonzero m)) ;;
   if nltb (cost solution) cost_after_dilation
   then Ok (vol_map b2z m, cost solution)
   else Ok (mask, cost_after_dilation))%py.

(** Steps 5 and 6 in sequence. *)
Definition mask_refiner (dce_rel : series A) (half : Z) (mask : vol Z) (df_cost_min : A)
    : py (refinement A) :=
  ('(mask1, c1) <- erosion_dilation_stage dce_rel half mask df_cost_min ;;
   '(mask2, c2) <- region_growing_stage dce_rel half mask1 c1 ;;
   Ok (Refinement mask1 c1 mask2 c2))%py.

(** Step 3 as the orchestrator runs it: one retry with the longer window. *)
Definition alignment_stage (dce_rel : series A) (binary_opening : vol bool)
    : py (option (Z * vol A)) :=
  (aligned <- find_most_peak_values dce_rel binary_opening 20 ;;
   match aligned with
   | None => find_most_peak_values dce_rel binary_opening 30
   | Some _ => Ok aligned
   end)%py.

(** Step 7: the curves of the voxels of the mask, their clusters, the mean
    curve of each cluster and the cluster of least overall mean. The
    histogram of the labels and the counters [idx] count the same labels,
    which is what the assertion of the source checks. *)
Definition cluster_mean (nt : nat) (timecourses : list (list A))
    (cluster_results : list Z) (x : Z) : list A :=
  let rows := select (map (fun c => c =? x) cluster_results) timecourses in
  map (fun s => ndiv s (nofZ (Z.of_nat (List.length rows)))) (sum_axis0 nt rows).

Definition argmin (l : list A) : Z :=
  match l with
  | [] => 0
  | x :: l' => argmax_from (fun v best => nleb best v) nisnan x 0 1 l'
  end.

Definition temporal_clustering (dce_rel : series A) (mask : vol Z) : py (list A) :=
  let inside := map (fun v => negb (v =? 0)) (vdata mask) in
  let timecourses := columns (map (select inside) (frames dce_rel)) in
  (cluster_results <- kmeans_fit_predict lib timecourses 1 ;;
   match cluster_results with
   | [] => Raise ValueError
   | c :: cs =>
       let number_of_clusters := list_max c cs + 1 in
       let samples := List.length timecourses in
       if number_of_clusters <=? 0 then Raise ValueError
       else if (List.length cluster_results <? samples)%nat then Raise IndexError
       else if existsb (fun l => l <? 0) (firstn samples cluster_results) then Raise KeyError
       else
         _ <- py_assert (List.length cluster_results =? samples)%nat ;;
         let tcc :=
           map (cluster_mean (List.length (frames dce_rel)) timecourses cluster_results)
               (zrange number_of_clusters) in
         let fullline :=
           map (fun c => ndiv (fold_left nadd c nzero) (nofZ (Z.of_nat (List.length c)))) tcc in
         let best_fit := argmin fullline in
         match nth_error tcc (Z.to_nat best_fit) with
         | Some Cb => Ok Cb
         | None => Raise IndexError
         end
   end)%py.

(** Steps 4 to 7: everything [find_deterministic_aif] does after step 3.
    The drawing of the candidate regions between steps 4 and 5 and the
    printed diagnostics are left out: nothing below reads them. *)
Definition extract_fit_refine (dce dce_rel : series A) (binary_opening : vol bool)
    : py (list A * cost_row A) :=
  let label_im := skimage_label lib binary_opening in
  let regions := skimage_regionprops lib label_im in
  let '(_, _, list_of_index) := find_promising_objects regions 1000 in
  let half := Z.of_nat (List.length (timeline dce_rel)) / 2 in
  (df_cost <- fit_candidates dce_rel label_im half list_of_index
                (repeat None (List.length regions)) ;;
   match nanargmin 0 df_cost with
   | None => Raise ValueError
   | Some (best_fit, df_cost_min) =>
       let mask := vol_map (fun l => b2z (l =? best_fit + 1)) label_im in
       r <- mask_refiner dce_rel half mask df_cost_min ;;
       Cb <- temporal_clustering dce_rel (mask_after_region_growing r) ;;
       _ <- savefig lib (timeline dce) Cb ;;
       Ok (Cb, CostRow df_cost_min (refined_cost_after_dilation r)
                 (refined_cost_after_region_growing r))
   end)%py.

(** The orchestrator. [max_timestep] and [retain_voxels], the outcome of
    step 3, are bound and not read again. *)
Definition find_deterministic_aif (dce : series A) : py (list A * cost_row A) :=
  (dce_rel <- relative_concentration_map dce 5 (nofZ 1) "abs" ;;
   brightest_voxels <- select_brightest_voxels dce_rel 20 (nofZ 2) ;;
   let binary_opening := select_binary_opening brightest_voxels in
   _aligned <- alignment_stage dce_rel binary_opening ;;
   extract_fit_refine dce dce_rel binary_opening)%py.
End Pipeline.

(** ** Concrete inputs *)

Definition all_values {A : Type} (P : A -> Prop) (v : series A) : Prop :=
  Forall (Forall P) (frames v).

Definition f64 (n : Z) : float64 := F64.of_Z n.

(** Two samples of two voxels, one minute apart: a voxel of tissue and a
    voxel of air that reads zero throughout. *)
Definition air_voxel_series : series float64 :=
  Series (1, 1, 2) [f64 0; f64 60] [[f64 2; f64 0]; [f64 6; f64 0]].

(** Three samples of two voxels. *)
Definition three_sample_series : series float64 :=
  Series (1, 1, 2) [f64 0; f64 60; f64 120]
         [[f64 1; f64 5]; [f64 3; f64 2]; [f64 8; f64 1]].

(** The centre and its six face neighbours. *)
Definition face_neighbourhood : structure :=
  [(-1, 0, 0); (0, -1, 0); (0, 0, -1); (0, 0, 0); (0, 0, 1); (0, 1, 0); (1, 0, 0)].

(** A 3 by 3 by 3 mask holding the centre voxel and its six face neighbours. *)
Definition cross_mask : vol bool :=
  Vol (3, 3, 3)
      [false; false; false;  false; true; false;  false; false; false;
       false; true; false;   true; true; true;    false; true; false;
       false; false; false;  false; true; false;  false; false; false].

(** Three labelled components as [regionprops] lists them: two above the
    area threshold of 1000 and one speck. *)
Definition unit_box : vol bool := Vol (1, 1, 1) [true].

Definition three_regions : list region :=
  [ Region 1 5000 unit_box ((0, 0, 0), (1, 1, 1));
    Region 2 3000 unit_box ((0, 0, 0), (1, 1, 1));
    Region 3 10 unit_box ((0, 0, 0), (1, 1, 1)) ].

(** The third component of the triple [find_promising_objects] returns. *)
Definition list_of_index_of (regions : list region) (area_threshold : Z) : list Z :=
  snd (find_promising_objects regions area_threshold).

(** The peak index of one voxel within the window: [np.argmax] of its
    values over the first [timesteps] samples. *)
Definition voxel_peak {A} `{Number A} (dce : series A) (timesteps : Z) (j : nat) : Z :=
  argmax (map (fun fr => nth j fr nzero) (slice_to timesteps (frames dce))).

(** Four samples of four voxels whose peaks fall at the indices 1, 2, 2 and
    3, and the mask that holds all four. *)
Definition four_peaks : series float64 :=
  Series (1, 1, 4) [f64 0; f64 60; f64 120; f64 180]
         [[f64 1; f64 1; f64 0; f64 0];
          [f64 5; f64 2; f64 1; f64 1];
          [f64 2; f64 5; f64 4; f64 2];
          [f64 1; f64 1; f64 2; f64 6]].

Definition all_four : vol bool := Vol (1, 1, 4) [true; true; true; true].

(** The mask step 5 proposes, the fit of its curve, and the fit of the
    curve of a flood-filled region: the arguments the two stages pass to
    [fit_mask]. *)
Definition dilated_mask {A : Type} (lib : externals A) (mask : vol Z) : vol Z :=
  multi_dil lib (multi_ero lib mask 1 cube3) 1 cube3.

Definition dilated_fit {A} `{Number A} (lib : externals A)
    (dce_rel : series A) (half : Z) (mask : vol Z) : py (fit_result A) :=
  fit_mask lib dce_rel half (map (fun v => v =? 1) (vdata (dilated_mask lib mask)))
           (count_nonzero_Z (dilated_mask lib mask)).

Definition grown_fit {A} `{Number A} (lib : externals A)
    (dce_rel : series A) (half : Z) (m : vol bool) : py (fit_result A) :=
  fit_mask lib dce_rel half (vdata m) (Z.of_nat (count_nonzero m)).

(** A contrast-free acquisition: 31 samples of four voxels that all read 7. *)
Definition uniform_volume : series float64 :=
  Series (1, 2, 2) (map (fun i => f64 (60 * i)) (zrange 31))
         (repeat (repeat (f64 7) 4) 31).

(** A small instance of the library interface, enough to run the stages on
    toy inputs: an optimiser that only performs the start-point check of
    scipy and reports the squared norm of the data as its cost, a single
    component for a mask, morphology with a zero border, a flood fill that
    stops at the seed, a single cluster, and a plot that succeeds. *)
Definition is_finite (x : float64) : bool :=
  match x with
  | S754_zero _ | S754_finite _ _ _ => true
  | _ => false
  end.

Definition toy_least_squares (_ y : list float64) : py (fit_result float64) :=
  if forallb is_finite y
  then Ok (FitResult (fold_left (fun acc v => nadd acc (nmul v v)) y nzero) [])
  else Raise ValueError.

Definition toy_regionprops (label_im : vol Z) : list region :=
  match filter (fun l => negb (l =? 0)) (vdata label_im) with
  | [] => []
  | ls => [Region 1 (Z.of_nat (List.length ls)) (vol_map (fun l => negb (l =? 0)) label_im)
                  ((0, 0, 0), vshape label_im)]
  end.

Definition toy_externals : externals float64 := {|
  least_squares := toy_least_squares;
  skimage_label := vol_map b2z;
  skimage_regionprops := toy_regionprops;
  skimage_erosion := fun im s => vol_map b2z (binary_erosion s (vol_map (fun v => negb (v =? 0)) im));
  skimage_dilation := fun im s => vol_map b2z (binary_dilation s (vol_map (fun v => negb (v =? 0)) im));
  np_std_where := fun _ _ => nzero;
  skimage_flood := fun v seed _ =>
    tabulate3 (vshape v) (fun p => ravel (vshape v) p =? ravel (vshape v) seed);
  kmeans_fit_predict := fun timecourses _ =>
    match timecourses with
    | [] => Raise ValueError
    | _ => Ok (map (fun _ => 0) timecourses)
    end;
  savefig := fun _ _ => Ok tt
|}.

(** Four samples of two voxels in which the contrast arrives only in the
    second half of the acquisition, and the mask of both voxels. *)
Definition late_enhancement : series float64 :=
  Series (1, 1, 2) [f64 0; f64 60; f64 120; f64 180]
         [[f64 0; f64 0]; [f64 0; f64 0]; [f64 3; f64 1]; [f64 4; f64 1]].

Definition both_voxels : vol Z := Vol (1, 1, 2) [1; 1].

(** Forty-two samples of three voxels. The contrast reaches the last two
    voxels in the samples 10 to 19; the first voxel reads zero throughout,
    but for the sample 20, which is NaN. With the mask of the last two
    voxels the first ten samples are zero everywhere, so the seed of region
    growing is the first voxel of the volume. *)
Definition late_nan : series float64 :=
  Series (1, 1, 3) (map (fun t => f64 (60 * t)) (zrange 42))
         (map (fun t => [ (if t =? 20 then F64.nan else nzero);
                          (if (10 <=? t) && (t <? 20) then f64 50 else nzero);
                          (if (10 <=? t) && (t <? 20) then f64 50 else nzero) ])
              (zrange 42)).

Definition last_two_voxels : vol Z := Vol (1, 1, 3) [0; 1; 1].

(** Four samples of two voxels with an early bolus in the first voxel. *)
Definition early_bolus : series float64 :=
  Series (1, 1, 2) [f64 0; f64 60; f64 120; f64 180]
         [[f64 1; f64 1]; [f64 4; f64 2]; [f64 2; f64 2]; [f64 1; f64 1]].
(** The outcome of steps 1 and 2 on the contrast-free acquisition: the
    concentration is zero everywhere and no voxel is selected. *)
Definition uniform_concentration : series float64 :=
  Series (1, 2, 2) (timeline uniform_volume) (repeat (repeat nzero 4) 31).

Definition empty_selection : vol bool := Vol (1, 2, 2) [false; false; false; false].

(** ** Well-shaped series and the arguments of the loops *)

(** A series whose frames all hold one value per voxel of its shape. *)
Definition well_shaped {A : Type} (im : series A) : Prop :=
  Forall (fun fr => List.length fr = nvoxels (spatial im)) (frames im).

(** The mask that holds both voxels of a two-voxel series. *)
Definition both_selected : vol bool := Vol (1, 1, 2) [true; true].

(** A zero of either sign. *)
Definition is_zero (x : float64) : bool :=
  match x with
  | S754_zero _ => true
  | _ => false
  end.

(** The fit of the mean curve of the candidate [x], the component of label
    [x + 1]: what one round of the fitting loop passes to [fit_mask]. *)
Definition candidate_fit {A} `{Number A} (lib : externals A)
    (dce_rel : series A) (label_im : vol Z) (half x : Z) : py (fit_result A) :=
  let w := map (fun l => l =? x + 1) (vdata label_im) in
  fit_mask lib dce_rel half w (Z.of_nat (List.length (filter (fun b => b) w))).

(** Two labelled voxels, one component each. *)
Definition two_labels : vol Z := Vol (1, 1, 2) [1; 2].

(** The voxels of a mask, as step 7 reads it: [if mask[s, r, c]]. *)
Definition inside_mask (mask : vol Z) : list bool :=
  map (fun v => negb (v =? 0)) (vdata mask).




(** The samples of one voxel; the mean of the first [baseline] of them, as
    [np.mean(im[:baseline], axis=0)] adds them up; and the value the mapper
    stores for a sample [x] of a voxel whose baseline mean is [m]. *)
Definition voxel_curve {A} `{Number A} (im : series A) (j : nat) : list A :=
  map (fun fr => nth j fr nzero) (frames im).

Definition baseline_mean {A} `{Number A} (im : series A) (baseline : Z) (j : nat) : A :=
  let window := slice_to baseline (voxel_curve im j) in
  ndiv (fold_left nadd window nzero) (nofZ (Z.of_nat (List.length window))).

Definition concentration {A} `{Number A} (option : string) (k x m : A) : A :=
  if String.eqb (strip (upper option)) "ABS" then clamp_negative (nmul k (nsub x m))
  else if String.eqb (strip (upper option)) "REL"
       then clamp_negative (ndiv (nmul k (nsub x m)) m)
       else nzero.


(** * Properties *)

(** ** Strings *)

Lemma is_space_upper_char (c : ascii) : is_space (upper_char c) = is_space c.
Proof. destruct c as [[] [] [] [] [] [] [] []]; reflexivity. Qed.

Lemma lstrip_upper (s : string) : lstrip (upper s) = upper (lstrip s).
Proof.
  induction s as [|c s IH]; simpl; [reflexivity|].
  rewrite is_space_upper_char. destruct (is_space c); [exact IH | reflexivity].
Qed.

Lemma rstrip_upper (s : string) : rstrip (upper s) = upper (rstrip s).
Proof.
  induction s as [|c s IH]; simpl; [reflexivity|].
  rewrite IH, is_space_upper_char.
  destruct (rstrip s); simpl; [destruct (is_space c)|]; reflexivity.
Qed.

(** Upper-casing and stripping commute: the source upper-cases first, the
    description of the mode strips first. *)
Lemma strip_upper (s : string) : strip (upper s) = upper (strip s).
Proof. unfold strip. now rewrite lstrip_upper, rstrip_upper. Qed.

(** ** Buffers *)

Lemma zip_with_length {A B C : Type} (f : A -> B -> C) (xs : list A) (ys : list B) :
  List.length xs = List.length ys -> List.length (zip_with f xs ys) = List.length ys.
Proof.
  revert ys; induction xs as [|x xs IH]; intros [|y ys] E; simpl in *; try congruence.
  f_equal. apply IH. congruence.
Qed.

Lemma zip_with_fst_const {A B : Type} (z : A) (ys : list B) :
  zip_with (fun a _ => a) (map (fun _ => z) ys) ys = map (fun _ => z) ys.
Proof. induction ys; simpl; congruence. Qed.

Lemma slice_to_all {A : Type} (stop : Z) (l : list A) :
  Z.of_nat (List.length l) <= stop -> slice_to stop l = l.
Proof.
  intros Hle. unfold slice_to.
  destruct (stop <? 0) eqn:E; [apply Z.ltb_lt in E; lia|].
  rewrite Z.min_r by lia. rewrite Nat2Z.id. apply firstn_all.
Qed.

(** ** binary64 comparisons *)

Lemma f64_clamp_zero : clamp_negative (nzero : float64) = nzero.
Proof. reflexivity. Qed.

Lemma f64_not_negative (x : float64) :
  nltb x nzero = false -> nisnan x = true \/ nleb nzero x = true.
Proof.
  destruct x as [s|s| |s m e]; cbn; try destruct s; cbn; intros E;
    try discriminate; auto.
Qed.

Lemma f64_clamp_not_negative (x : float64) : nltb (clamp_negative x) nzero = false.
Proof.
  unfold clamp_negative. destruct (nltb x nzero) eqn:E; [reflexivity | exact E].
Qed.

(** ** The concentration mapper *)

Lemma relative_concentration_map_raises {A} `{Number A}
    (im : series A) (baseline : Z) (k : A) (option : string) :
  baseline < 0 -> baseline <= - series_len im ->
  relative_concentration_map im baseline k option = Raise IndexError.
Proof.
  intros H0 HT. unfold relative_concentration_map, series_slice_to.
  replace (baseline <? 0) with true by (symmetry; now apply Z.ltb_lt).
  replace (baseline <=? - series_len im) with true by (symmetry; now apply Z.leb_le).
  reflexivity.
Qed.

Lemma series_slice_to_returns {A : Type} (baseline : Z) (im : series A) :
  0 <= baseline \/ - series_len im < baseline ->
  series_slice_to baseline im = Ok (slice_to baseline (frames im)).
Proof.
  intros Hb. unfold series_slice_to.
  replace ((baseline <? 0) && (baseline <=? - series_len im)) with false; [reflexivity|].
  symmetry. apply andb_false_iff.
  destruct Hb; [left; apply Z.ltb_ge | right; apply Z.leb_gt]; assumption.
Qed.

Lemma relative_concentration_map_returns {A} `{Number A}
    (im : series A) (baseline : Z) (k : A) (option : string) :
  0 <= baseline \/ - series_len im < baseline ->
  exists body,
    List.length body = List.length (frames im) /\
    relative_concentration_map im baseline k option =
    Ok (Series (spatial im) (timeline im) (map (map clamp_negative) body)).
Proof.
  intros Hb. unfold relative_concentration_map.
  rewrite (series_slice_to_returns _ Hb). cbn [bind].
  eexists; split; [|reflexivity].
  rewrite zip_with_length; [reflexivity | now rewrite length_map].
Qed.

Lemma relative_concentration_map_Ok {A} `{Number A}
    (im : series A) (baseline : Z) (k : A) (option : string) (v : series A) :
  relative_concentration_map im baseline k option = Ok v ->
  (0 <= baseline \/ - series_len im < baseline) /\
  exists body,
    List.length body = List.length (frames im) /\
    v = Series (spatial im) (timeline im) (map (map clamp_negative) body).
Proof.
  intros E.
  assert (Hb : 0 <= baseline \/ - series_len im < baseline).
  { destruct (Z_lt_le_dec baseline 0) as [L|G]; [|now left].
    destruct (Z_lt_le_dec (- series_len im) baseline) as [L'|G']; [now right|].
    rewrite relative_concentration_map_raises in E by assumption. discriminate E. }
  split; [exact Hb|].
  destruct (relative_concentration_map_returns im k option Hb) as (body & L & E').
  rewrite E' in E. injection E as <-. now exists body.
Qed.

(** C5, as the code has it: no value of the concentration volume is negative.
    Every value is greater than or equal to zero or is NaN. *)
Theorem concentration_never_negative
    (im : series float64) (baseline : Z) (k : float64) (option : string)
    (v : series float64) :
  relative_concentration_map im baseline k option = Ok v ->
  all_values (fun x => nisnan x = true \/ nleb nzero x = true) v.
Proof.
  intros E. apply relative_concentration_map_Ok in E.
  destruct E as (_ & body & _ & ->). unfold all_values; simpl.
  apply Forall_map, Forall_forall; intros fr _.
  apply Forall_map, Forall_forall; intros x _.
  apply f64_not_negative, f64_clamp_not_negative.
Qed.

Lemma concentration_never_negative_witness :
  exists v,
    relative_concentration_map air_voxel_series 1 (f64 1) "rel" = Ok v /\
    all_values (fun x => nisnan x = true \/ nleb nzero x = true) v.
Proof.
  eexists; split; [reflexivity|].
  apply (@concentration_never_negative air_voxel_series 1 (f64 1) "rel").
  reflexivity.
Defined.

(** C5 as stated fails: in relative mode a voxel whose baseline mean is zero
    divides zero by zero, and the clamp leaves the NaN in place. *)
Lemma concentration_clamp_counterexample :
  ~ (forall v,
       relative_concentration_map air_voxel_series 1 (f64 1) "rel" = Ok v ->
       all_values (fun x => nleb nzero x = true) v).
Proof.
  assert (E : relative_concentration_map air_voxel_series 1 (f64 1) "rel" =
              Ok (Series (1, 1, 2) [f64 0; f64 60]
                         [[nzero; F64.nan]; [f64 2; F64.nan]]))
    by (vm_compute; reflexivity).
  intros Hall. specialize (Hall _ E).
  unfold all_values in Hall. cbn [frames] in Hall.
  inversion Hall as [|fr frs Hfr _]; subst.
  inversion Hfr as [|x xs _ Hxs]; subst.
  inversion Hxs as [|y ys Hy _]; subst.
  discriminate Hy.
Qed.

(** With a baseline length of [T] or more the slice [im[:baseline]] is the
    whole series, so the baseline is the mean over all samples. *)
Lemma baseline_past_the_end {A} `{Number A}
    (im : series A) (baseline : Z) (k : A) (option : string) :
  series_len im <= baseline ->
  relative_concentration_map im baseline k option =
  relative_concentration_map im (series_len im) k option.
Proof.
  intros Hle. unfold relative_concentration_map.
  rewrite !series_slice_to_returns by (unfold series_len in *; lia).
  rewrite !slice_to_all; [reflexivity | unfold series_len in *; lia | exact Hle].
Qed.

(** C7 as stated fails: a baseline as long as the series is accepted. *)
Lemma baseline_range_counterexample :
  (series_len three_sample_series <= 3 \/ 3 <= 0) /\
  ~ raises (relative_concentration_map three_sample_series 3 (f64 1) "abs").
Proof.
  split; [left; vm_compute; discriminate|].
  intros [e He].
  destruct (@relative_concentration_map_returns _ _ three_sample_series 3 (f64 1) "abs")
    as (body & _ & E); [left; lia|].
  rewrite E in He. discriminate He.
Qed.

(** C10: a mode that is neither ABS nor REL, once stripped and upper-cased,
    gives the all-zero volume of the shape of the input, and no error. The
    mode is ASCII text, on which [upper] and [strip] are those of Python,
    and the baseline length is one the slice accepts. *)
Theorem unknown_mode_gives_zero_volume
    (im : series float64) (baseline : Z) (k : float64) (option : string) :
  ascii_text option = true ->
  0 <= baseline \/ - series_len im < baseline ->
  upper (strip option) <> "ABS"%string ->
  upper (strip option) <> "REL"%string ->
  relative_concentration_map im baseline k option =
  Ok (Series (spatial im) (timeline im)
             (map (fun _ => repeat nzero (nvoxels (spatial im))) (frames im))).
Proof.
  intros _ Hb Habs Hrel. rewrite <- strip_upper in Habs, Hrel.
  unfold relative_concentration_map.
  rewrite (series_slice_to_returns _ Hb). cbn [bind]. do 2 f_equal.
  unfold relative_frame.
  apply String.eqb_neq in Habs, Hrel. rewrite Habs, Hrel.
  rewrite zip_with_fst_const, map_map.
  apply map_ext; intros _.
  rewrite map_repeat. now rewrite f64_clamp_zero.
Qed.

Lemma unknown_mode_gives_zero_volume_witness :
  relative_concentration_map three_sample_series 2 (f64 1) " ratio " =
  Ok (Series (1, 1, 2) [f64 0; f64 60; f64 120]
             [[nzero; nzero]; [nzero; nzero]; [nzero; nzero]]).
Proof.
  apply (@unknown_mode_gives_zero_volume three_sample_series 2 (f64 1) " ratio ");
    [reflexivity | left; lia | vm_compute; discriminate | vm_compute; discriminate].
Defined.

(** ** Binary morphology *)

Lemma nth_map_seq {A : Type} (g : nat -> A) (n i : nat) (d : A) :
  (i < n)%nat -> nth i (map g (seq 0 n)) d = g i.
Proof.
  intros Hi. rewrite (nth_indep _ d (g 0%nat)) by now rewrite length_map, length_seq.
  rewrite (map_nth g (seq 0 n) 0%nat i). now rewrite seq_nth.
Qed.

Lemma ravel_in_range (nz ny nx z y x : Z) :
  in_bounds (nz, ny, nx) (z, y, x) = true ->
  0 <= ravel (nz, ny, nx) (z, y, x) < nz * ny * nx.
Proof.
  unfold in_bounds, ravel. rewrite !andb_true_iff, !Z.leb_le, !Z.ltb_lt.
  intros (((((Hz0 & Hz1) & Hy0) & Hy1) & Hx0) & Hx1).
  assert (H1 : 0 <= z * ny + y <= nz * ny - 1) by nia.
  assert (H2 : (z * ny + y) * nx <= (nz * ny - 1) * nx) by (apply Z.mul_le_mono_nonneg_r; lia).
  split; [nia | lia].
Qed.

Lemma unravel_ravel (nz ny nx z y x : Z) :
  in_bounds (nz, ny, nx) (z, y, x) = true ->
  unravel (nz, ny, nx) (ravel (nz, ny, nx) (z, y, x)) = (z, y, x).
Proof.
  unfold in_bounds, ravel, unravel. rewrite !andb_true_iff, !Z.leb_le, !Z.ltb_lt.
  intros (((((Hz0 & Hz1) & Hy0) & Hy1) & Hx0) & Hx1).
  assert (E1 : ((z * ny + y) * nx + x) / nx = z * ny + y)
    by (symmetry; apply (Z.div_unique_pos _ _ _ x); lia).
  assert (E2 : ((z * ny + y) * nx + x) mod nx = x)
    by (symmetry; apply (Z.mod_unique_pos _ _ (z * ny + y)); lia).
  assert (E3 : (z * ny + y) / ny = z)
    by (symmetry; apply (Z.div_unique_pos _ _ _ y); lia).
  assert (E4 : (z * ny + y) mod ny = y)
    by (symmetry; apply (Z.mod_unique_pos _ _ z); lia).
  now rewrite E1, E2, E3, E4.
Qed.

(** Reading back an array built voxel by voxel. *)
Lemma get3_tabulate3 {A : Type} (border : A) (sh : Z * Z * Z) (f : coord -> A) (p : coord) :
  get3 border (tabulate3 sh f) p = if in_bounds sh p then f p else border.
Proof.
  unfold get3; simpl. destruct (in_bounds sh p) eqn:B; [|reflexivity].
  destruct sh as [[nz ny] nx], p as [[z y] x].
  pose proof (ravel_in_range _ _ _ _ _ _ B) as R.
  rewrite nth_map_seq by (unfold nvoxels; lia).
  rewrite Z2Nat.id by lia. now rewrite unravel_ravel.
Qed.

Lemma get3_binary_erosion (s : structure) (v : vol bool) (p : coord) :
  get3 false (binary_erosion s v) p =
  in_bounds (vshape v) p && forallb (fun d => get3 false v (shift p d)) s.
Proof.
  unfold binary_erosion. rewrite get3_tabulate3. now destruct (in_bounds (vshape v) p).
Qed.

Lemma get3_binary_dilation (s : structure) (v : vol bool) (p : coord) :
  get3 false (binary_dilation s v) p =
  in_bounds (vshape v) p && existsb (fun d => get3 false v (unshift p d)) s.
Proof.
  unfold binary_dilation. rewrite get3_tabulate3. now destruct (in_bounds (vshape v) p).
Qed.

Lemma existsb_pointwise {A : Type} (f g : A -> bool) (l : list A) :
  (forall x, f x = g x) -> existsb f l = existsb g l.
Proof. intros E; induction l as [|x l IH]; simpl; [reflexivity | now rewrite E, IH]. Qed.

Lemma face_neighbourhood_spec (dz dy dx : Z) :
  In (dz, dy, dx) face_neighbourhood <-> Z.abs dz + Z.abs dy + Z.abs dx <= 1.
Proof.
  unfold face_neighbourhood; simpl. split.
  - intros H; repeat (destruct H as [[= <- <- <-] | H]; [simpl; lia|]); contradiction.
  - intros H.
    assert (Hz : dz = -1 \/ dz = 0 \/ dz = 1) by lia.
    assert (Hy : dy = -1 \/ dy = 0 \/ dy = 1) by lia.
    assert (Hx : dx = -1 \/ dx = 0 \/ dx = 1) by lia.
    destruct Hz as [-> | [-> | ->]], Hy as [-> | [-> | ->]], Hx as [-> | [-> | ->]];
      simpl in H; try lia; intuition congruence.
Qed.

(** C8, as the code has it: the opening is an erosion followed by a dilation
    with the structuring element scipy generates when none is passed, the
    centre and its six face neighbours. A voxel is set in the result exactly
    when some placement of that element covers it and lies inside the mask. *)
Theorem binary_opening_uses_face_neighbourhood (voxels : vol bool) :
  select_binary_opening voxels =
    binary_dilation face_neighbourhood (binary_erosion face_neighbourhood voxels) /\
  (forall dz dy dx,
     In (dz, dy, dx) face_neighbourhood <-> Z.abs dz + Z.abs dy + Z.abs dx <= 1) /\
  List.length face_neighbourhood = 7%nat /\
  (forall p,
     get3 false (select_binary_opening voxels) p =
     in_bounds (vshape voxels) p &&
     existsb (fun d =>
                in_bounds (vshape voxels) (unshift p d) &&
                forallb (fun d' => get3 false voxels (shift (unshift p d) d'))
                        face_neighbourhood)
             face_neighbourhood).
Proof.
  split; [reflexivity|]. split; [exact face_neighbourhood_spec|]. split; [reflexivity|].
  intros p. change (select_binary_opening voxels)
    with (binary_dilation face_neighbourhood (binary_erosion face_neighbourhood voxels)).
  rewrite get3_binary_dilation. f_equal.
  apply existsb_pointwise; intros d. apply get3_binary_erosion.
Qed.

(** C8 as stated fails: opening the cross with the full 3 by 3 by 3 element
    removes it, the opening of the source keeps it. *)
Lemma binary_opening_counterexample :
  select_binary_opening cross_mask <> binary_opening cube3 cross_mask /\
  ~ In (1, 1, 1) (generate_binary_structure 1) /\
  In (1, 1, 1) cube3.
Proof.
  split; [vm_compute; discriminate|]. split.
  - vm_compute. intuition discriminate.
  - vm_compute. intuition.
Qed.

(** ** Region extraction *)

Lemma In_combine_range {A : Type} (l : list A) (s : nat) (num : Z) (x : A) :
  In (num, x) (combine (map Z.of_nat (seq s (List.length l))) l) <->
  exists i, num = Z.of_nat (s + i) /\ nth_error l i = Some x.
Proof.
  revert s; induction l as [|y l IH]; intros s; simpl.
  - split; [contradiction | intros ([|i] & _ & E); discriminate].
  - rewrite IH. split.
    + intros [[= <- <-] | (i & -> & E)].
      * exists 0%nat. now rewrite Nat.add_0_r.
      * exists (S i). split; [f_equal; lia | exact E].
    + intros ([|i] & -> & E); simpl in E.
      * left. injection E as ->. now rewrite Nat.add_0_r.
      * right. exists i. split; [f_equal; lia | exact E].
Qed.

Lemma In_enumerate {A : Type} (l : list A) (num : Z) (x : A) :
  In (num, x) (enumerate l) <-> 0 <= num /\ nth_error l (Z.to_nat num) = Some x.
Proof.
  unfold enumerate, zrange. rewrite Nat2Z.id, In_combine_range. split.
  - intros (i & -> & E). simpl. rewrite Nat2Z.id. split; [lia | exact E].
  - intros (Hn & E). exists (Z.to_nat num). simpl. split; [lia | exact E].
Qed.

(** C4, as the code has it: the candidate list holds exactly the regions,
    other than the first of the region list, whose area exceeds the
    threshold. The region list has no entry for the background. *)
Theorem promising_objects_skip_first_region
    (regions : list region) (area_threshold num : Z) (x : region) :
  0 <= num ->
  nth_error regions (Z.to_nat num) = Some x ->
  (In num (list_of_index_of regions area_threshold) <->
   num <> 0 /\ area_threshold < area x).
Proof.
  intros Hnum Hx. unfold list_of_index_of, find_promising_objects; simpl.
  rewrite in_map_iff. split.
  - intros ([n y] & <- & Hin). simpl in *.
    apply filter_In in Hin. destruct Hin as (Hin & Hkeep).
    apply In_enumerate in Hin. destruct Hin as (_ & Hy).
    rewrite Hx in Hy. injection Hy as <-.
    apply andb_true_iff in Hkeep. destruct Hkeep as (H0 & Ha).
    apply negb_true_iff, Z.eqb_neq in H0. apply Z.ltb_lt in Ha. now split.
  - intros (H0 & Ha). exists (num, x). split; [reflexivity|].
    apply filter_In. split; [apply In_enumerate; now split|].
    apply andb_true_iff. split; [apply negb_true_iff, Z.eqb_neq; exact H0 | now apply Z.ltb_lt].
Qed.

Lemma promising_objects_skip_first_region_witness :
  In 1 (list_of_index_of three_regions 1000) <->
  1 <> 0 /\ 1000 < area (Region 2 3000 unit_box ((0, 0, 0), (1, 1, 1))).
Proof.
  apply (@promising_objects_skip_first_region three_regions 1000 1); [lia | reflexivity].
Defined.

(** Masks and boxes are those of the listed regions, in the same order. *)
Lemma promising_objects_aligned (regions : list region) (area_threshold : Z) :
  let '(masks, boxes, list_of_index) := find_promising_objects regions area_threshold in
  List.length masks = List.length list_of_index /\
  List.length boxes = List.length list_of_index.
Proof. unfold find_promising_objects. now rewrite !length_map. Qed.

(** C4 as stated fails: the first component lies above the threshold, is
    not the background, and is left out of the candidate list. *)
Lemma promising_objects_counterexample :
  nth_error three_regions 0 = Some (Region 1 5000 unit_box ((0, 0, 0), (1, 1, 1))) /\
  label (Region 1 5000 unit_box ((0, 0, 0), (1, 1, 1))) <> 0 /\
  1000 < area (Region 1 5000 unit_box ((0, 0, 0), (1, 1, 1))) /\
  ~ In 0 (list_of_index_of three_regions 1000).
Proof.
  split; [reflexivity|]. split; [discriminate|]. split; [reflexivity|].
  vm_compute. intuition discriminate.
Qed.

(** ** Boolean indexing *)

Lemma select_map {A B : Type} (f : A -> B) (mask : list bool) (a : list A) :
  select mask (map f a) = map f (select mask a).
Proof.
  revert a; induction mask as [|[] mask IH]; intros [|x a]; simpl; try reflexivity.
  - now rewrite IH.
  - apply IH.
Qed.

Lemma zip_with_nil_r {A B C : Type} (f : A -> B -> C) (a : list A) :
  zip_with f a [] = [].
Proof. now destruct a. Qed.

Lemma select_zip_with {A B C : Type} (f : A -> B -> C) (mask : list bool)
    (a : list A) (b : list B) :
  select mask (zip_with f a b) = zip_with f (select mask a) (select mask b).
Proof.
  revert a b; induction mask as [|m mask IH]; intros a b.
  - simpl. now destruct (zip_with f a b).
  - destruct a as [|x a]; [now destruct m|].
    destruct b as [|y b].
    + simpl. destruct m; [reflexivity | now rewrite zip_with_nil_r].
    + simpl. destruct m; simpl; [now rewrite IH | apply IH].
Qed.

Lemma select_nil {A : Type} (mask : list bool) : select mask (@nil A) = [].
Proof. now destruct mask as [|[] mask]. Qed.

Lemma columns_select {A : Type} (mask : list bool) (rows : list (list A)) :
  columns (map (select mask) rows) = select mask (columns rows).
Proof.
  induction rows as [|r rs IH]; [simpl; now rewrite select_nil|].
  destruct rs as [|r2 rs].
  - simpl. now rewrite select_map.
  - change (columns (map (select mask) (r :: r2 :: rs)))
      with (zip_with cons (select mask r) (columns (map (select mask) (r2 :: rs)))).
    rewrite IH, <- select_zip_with. reflexivity.
Qed.

Lemma zip_with_map_seq {A B C : Type} (f : A -> B -> C) (d : A) (g : nat -> B)
    (r : list A) (s : nat) :
  zip_with f r (map g (seq s (List.length r))) =
  map (fun j => f (nth (j - s) r d) (g j)) (seq s (List.length r)).
Proof.
  revert s; induction r as [|x r IH]; intros s; simpl; [reflexivity|].
  rewrite Nat.sub_diag. f_equal. rewrite IH.
  apply map_ext_in; intros j Hj. apply in_seq in Hj.
  replace (j - s)%nat with (S (j - S s)) by lia. reflexivity.
Qed.

Lemma list_as_map_nth {A : Type} (d : A) (r : list A) (s : nat) :
  r = map (fun j => nth (j - s) r d) (seq s (List.length r)).
Proof.
  revert s; induction r as [|x r IH]; intros s; simpl; [reflexivity|].
  rewrite Nat.sub_diag. f_equal. rewrite (IH (S s)) at 1.
  apply map_ext_in; intros j Hj. apply in_seq in Hj.
  replace (j - s)%nat with (S (j - S s)) by lia. reflexivity.
Qed.

(** The columns of a table whose rows all have [n] entries. *)
Lemma columns_well_shaped {A : Type} (d : A) (n : nat) (rows : list (list A)) :
  rows <> [] ->
  Forall (fun r => List.length r = n) rows ->
  columns rows = map (fun j => map (fun r => nth j r d) rows) (seq 0 n).
Proof.
  intros Hne Hall. induction rows as [|r rs IH]; [congruence|].
  inversion Hall as [|? ? Hr Hrs]; subst.
  destruct rs as [|r2 rs].
  - simpl. rewrite (list_as_map_nth d r 0) at 1.
    rewrite map_map. apply map_ext; intros j. now rewrite Nat.sub_0_r.
  - change (columns (r :: r2 :: rs)) with (zip_with cons r (columns (r2 :: rs))).
    rewrite IH by (congruence || assumption).
    rewrite (zip_with_map_seq cons d).
    apply map_ext; intros j. now rewrite Nat.sub_0_r.
Qed.

Lemma put_mask_select {A : Type} (z : A) (mask : list bool) (vals : list A) :
  List.length vals = List.length mask ->
  put_mask mask (select mask vals) (repeat z (List.length mask)) =
  zip_with (fun (m : bool) v => if m then v else z) mask vals.
Proof.
  revert vals; induction mask as [|m mask IH]; intros [|v vals] E; simpl in *;
    try congruence.
  injection E as E. destruct m; simpl; now rewrite IH.
Qed.

Lemma nth_zip_with {A B C : Type} (f : A -> B -> C) (a : list A) (b : list B)
    (da : A) (db : B) (d : C) (j : nat) :
  (j < List.length a)%nat -> (j < List.length b)%nat ->
  nth j (zip_with f a b) d = f (nth j a da) (nth j b db).
Proof.
  revert a b; induction j as [|j IH]; intros [|x a] [|y b] Ha Hb; simpl in *;
    try lia; [reflexivity|].
  apply IH; lia.
Qed.

Lemma zip_with_length_eq {A B C : Type} (f : A -> B -> C) (a : list A) (b : list B) :
  List.length a = List.length b -> List.length (zip_with f a b) = List.length a.
Proof. intros E. rewrite zip_with_length by exact E. now symmetry. Qed.

(** ** Temporal peak alignment *)

Lemma Forall_firstn_keeps {A : Type} (P : A -> Prop) (k : nat) (l : list A) :
  Forall P l -> Forall P (firstn k l).
Proof.
  revert k; induction l as [|x l IH]; intros [|k] Hl; simpl; try constructor;
    inversion Hl; subst; auto.
Qed.

Lemma put_mask_nil {A : Type} (mask : list bool) (base : list A) :
  put_mask mask [] base = base.
Proof.
  revert base; induction mask as [|[] mask IH]; intros [|b base]; simpl;
    try reflexivity; now rewrite IH.
Qed.

(** [np.argmax] of integer counts: the first index that holds the greatest
    count. *)
Lemma argmax_from_fullest (l : list Z) :
  forall (pre : list Z) (best : Z) (bi : nat),
    (bi < List.length pre)%nat ->
    nth bi pre 0 = best ->
    (forall j, (j < List.length pre)%nat -> nth j pre 0 <= best) ->
    (forall j, (j < bi)%nat -> nth j pre 0 < best) ->
    exists r,
      argmax_from Z.leb (fun _ => false) best (Z.of_nat bi)
                  (Z.of_nat (List.length pre)) l = Z.of_nat r /\
      (r < List.length (pre ++ l))%nat /\
      (forall j, (j < List.length (pre ++ l))%nat ->
                 nth j (pre ++ l) 0 <= nth r (pre ++ l) 0) /\
      (forall j, (j < r)%nat -> nth j (pre ++ l) 0 < nth r (pre ++ l) 0).
Proof.
  induction l as [|x l IH]; intros pre best bi Hbi Hbest Hmax Hfirst.
  - exists bi. rewrite app_nil_r. cbn [argmax_from]. rewrite Hbest.
    repeat split; assumption.
  - cbn [argmax_from].
    replace (Z.of_nat (List.length pre) + 1) with (Z.of_nat (List.length (pre ++ [x])))
      by (rewrite length_app; cbn [List.length]; lia).
    replace (pre ++ x :: l) with ((pre ++ [x]) ++ l) by now rewrite <- app_assoc.
    destruct (x <=? best) eqn:E; cbn [negb].
    + apply Z.leb_le in E. apply IH.
      * rewrite length_app; cbn [List.length]; lia.
      * now rewrite app_nth1.
      * intros j Hj. rewrite length_app in Hj; cbn [List.length] in Hj.
        destruct (Nat.lt_ge_cases j (List.length pre)) as [L|G].
        -- rewrite app_nth1 by exact L. now apply Hmax.
        -- assert (j = List.length pre) by lia. subst j.
           rewrite app_nth2, Nat.sub_diag by lia. exact E.
      * intros j Hj. rewrite app_nth1 by lia. now apply Hfirst.
    + apply Z.leb_gt in E. apply (IH (pre ++ [x]) x (List.length pre)).
      * rewrite length_app; cbn [List.length]; lia.
      * now rewrite app_nth2, Nat.sub_diag by lia.
      * intros j Hj. rewrite length_app in Hj; cbn [List.length] in Hj.
        destruct (Nat.lt_ge_cases j (List.length pre)) as [L|G].
        -- rewrite app_nth1 by exact L. specialize (Hmax j L). lia.
        -- assert (j = List.length pre) by lia. subst j.
           rewrite app_nth2, Nat.sub_diag by lia. cbn. lia.
      * intros j Hj. rewrite app_nth1 by exact Hj. specialize (Hmax j Hj). lia.
Qed.

Lemma argmax_Z_fullest (hist : list Z) :
  0 <= argmax_Z hist /\
  (forall b, (b < List.length hist)%nat ->
             nth b hist 0 <= nth (Z.to_nat (argmax_Z hist)) hist 0) /\
  (forall b, (b < Z.to_nat (argmax_Z hist))%nat ->
             nth b hist 0 < nth (Z.to_nat (argmax_Z hist)) hist 0).
Proof.
  destruct hist as [|x l]; [cbn; repeat split; intros; lia|].
  unfold argmax_Z.
  destruct (@argmax_from_fullest l [x] x 0%nat) as (r & E & _ & Hmax & Hfirst).
  - cbn; lia.
  - reflexivity.
  - intros [|j] Hj; cbn in *; lia.
  - intros j Hj; lia.
  - change (Z.of_nat 0) with 0 in E. change (Z.of_nat (List.length [x])) with 1 in E.
    rewrite E, Nat2Z.id. change ([x] ++ l) with (x :: l) in *.
    split; [lia|]. split; assumption.
Qed.

Section PeakAlignment.
Context {A : Type} `{Number A}.
Variables (dce : series A) (mask : vol bool) (timesteps : Z).
Hypothesis Hmask : List.length (vdata mask) = nvoxels (spatial dce).
Hypothesis Hframes :
  Forall (fun fr => List.length fr = nvoxels (spatial dce)) (frames dce).

(** The peak indices of the masked voxels are those of the voxels, read
    under the mask. *)
Lemma peak_indices_of_mask :
  slice_to timesteps (frames dce) <> [] ->
  peak_indices (slice_to timesteps (frames dce)) (vdata mask) =
  select (vdata mask)
         (map (voxel_peak dce timesteps) (seq 0 (nvoxels (spatial dce)))).
Proof.
  intros Hne. unfold peak_indices. rewrite columns_select.
  rewrite (columns_well_shaped nzero (n := nvoxels (spatial dce))); [| exact Hne |].
  - rewrite <- select_map, map_map. reflexivity.
  - unfold slice_to. now apply Forall_firstn_keeps.
Qed.

(** [first_part] voxel by voxel: inside the mask, and with a peak after
    the first sample. *)
Lemma first_part_mask_entries :
  slice_to timesteps (frames dce) <> [] ->
  first_part_mask dce mask timesteps =
  zip_with (fun (m : bool) p => if m then (0 <? p) && (p <? timesteps) else false)
           (vdata mask)
           (map (voxel_peak dce timesteps) (seq 0 (nvoxels (spatial dce)))).
Proof.
  intros Hne. unfold first_part_mask.
  rewrite peak_indices_of_mask by exact Hne.
  rewrite <- select_map, <- Hmask.
  rewrite put_mask_select; [|now rewrite length_map, length_map, length_seq].
  clear. generalize (map (voxel_peak dce timesteps) (seq 0 (List.length (vdata mask)))).
  induction (vdata mask) as [|m l IH]; intros [|p ps]; simpl; try reflexivity.
  now rewrite IH.
Qed.

Lemma first_part_mask_kept (j : nat) :
  nth j (first_part_mask dce mask timesteps) false = true ->
  nth j (vdata mask) false = true /\ 0 < voxel_peak dce timesteps j.
Proof.
  destruct (slice_to timesteps (frames dce)) as [|fr0 w] eqn:W.
  - unfold first_part_mask, peak_indices. rewrite W. simpl.
    rewrite put_mask_nil. intros E.
    destruct (nth_in_or_default j (repeat false (nvoxels (spatial dce))) false)
      as [Hin | Hd]; [apply repeat_spec in Hin|]; congruence.
  - rewrite first_part_mask_entries by (rewrite W; discriminate).
    destruct (Nat.lt_ge_cases j (nvoxels (spatial dce))) as [Hj | Hj].
    + rewrite (nth_zip_with _ _ _ false 0) by
        (rewrite ?length_map, ?length_seq; lia).
      rewrite nth_map_seq by exact Hj.
      destruct (nth j (vdata mask) false); [|discriminate].
      rewrite andb_true_iff, Z.ltb_lt. intros [E _]. now split.
    + rewrite nth_overflow; [discriminate|].
      rewrite zip_with_length_eq by now rewrite length_map, length_seq.
      lia.
Qed.

Lemma find_most_peak_values_success (max_timestep : Z) (retain_voxels : vol A) :
  find_most_peak_values dce mask timesteps = Ok (Some (max_timestep, retain_voxels)) ->
  max_timestep = argmax_Z (peak_histogram dce mask timesteps) /\
  0 < max_timestep < timesteps - 1 /\
  vshape retain_voxels = spatial dce /\
  exists fr,
    nth_error (frames dce) (Z.to_nat max_timestep) = Some fr /\
    vdata retain_voxels =
    zip_with (fun (m : bool) x => if m then x else nzero) (vdata mask) fr.
Proof.
  unfold find_most_peak_values, peak_histogram.
  destruct (slice_to timesteps (frames dce)) as [|fr0 w]; [discriminate|].
  destruct (timesteps <=? 0); [discriminate|].
  set (ts := argmax_Z _).
  destruct ((ts =? 0) || (timesteps - 1 <=? ts)) eqn:B; [discriminate|].
  apply orb_false_iff in B. destruct B as [B0 B1].
  apply Z.eqb_neq in B0. apply Z.leb_gt in B1.
  destruct (nth_error (frames dce) (Z.to_nat ts)) as [fr|] eqn:E; [|discriminate].
  intros [= <- <-]. simpl.
  assert (Hts : 0 <= ts) by apply argmax_Z_fullest.
  split; [reflexivity|].
  split; [lia|]. split; [reflexivity|].
  exists fr. split; [exact E|].
  rewrite <- Hmask. apply put_mask_select.
  rewrite Hmask. rewrite Forall_forall in Hframes. apply Hframes.
  eapply nth_error_In; exact E.
Qed.
End PeakAlignment.

(** C3, as the code has it: before the histogram is built the aligner drops
    the masked voxels that peak at the first index of the window, and keeps
    only voxels of the mask; on success the timestep it returns is the
    index of the fullest bin of the histogram, the first such index, and
    lies strictly between the first and the last index of the window; the
    value map holds, at each voxel of the mask, the value of that voxel at
    that timestep, and zero outside the mask. *)
Theorem peak_alignment_keeps_mask_at_dominant_timestep {A} `{Number A}
    (dce : series A) (mask : vol bool) (timesteps : Z) :
  List.length (vdata mask) = nvoxels (spatial dce) ->
  Forall (fun fr => List.length fr = nvoxels (spatial dce)) (frames dce) ->
  (forall j,
     nth j (vdata mask) false = true ->
     voxel_peak dce timesteps j = 0 ->
     nth j (first_part_mask dce mask timesteps) false = false) /\
  (forall j,
     nth j (first_part_mask dce mask timesteps) false = true ->
     nth j (vdata mask) false = true) /\
  (forall max_timestep retain_voxels,
     find_most_peak_values dce mask timesteps = Ok (Some (max_timestep, retain_voxels)) ->
     (forall b, (b < List.length (peak_histogram dce mask timesteps))%nat ->
                nth b (peak_histogram dce mask timesteps) 0 <=
                nth (Z.to_nat max_timestep) (peak_histogram dce mask timesteps) 0) /\
     (forall b, (b < Z.to_nat max_timestep)%nat ->
                nth b (peak_histogram dce mask timesteps) 0 <
                nth (Z.to_nat max_timestep) (peak_histogram dce mask timesteps) 0) /\
     0 < max_timestep < timesteps - 1 /\
     vshape retain_voxels = spatial dce /\
     exists fr,
       nth_error (frames dce) (Z.to_nat max_timestep) = Some fr /\
       vdata retain_voxels =
       zip_with (fun (m : bool) x => if m then x else nzero) (vdata mask) fr).
Proof.
  intros Hmask Hframes. split; [|split].
  - intros j _ Hpeak.
    destruct (nth j (first_part_mask dce mask timesteps) false) eqn:E; [|reflexivity].
    apply first_part_mask_kept in E; [lia | assumption | assumption].
  - intros j E. apply first_part_mask_kept in E; [tauto | assumption | assumption].
  - intros ts rv E.
    apply find_most_peak_values_success in E; [|assumption | assumption].
    destruct E as (-> & Hrange & Hrest).
    destruct (argmax_Z_fullest (peak_histogram dce mask timesteps)) as (_ & Hmax & Hfirst).
    split; [exact Hmax|]. split; [exact Hfirst|]. split; assumption.
Qed.

Lemma peak_alignment_keeps_mask_at_dominant_timestep_witness :
  find_most_peak_values four_peaks all_four 4 =
    Ok (Some (2, Vol (1, 1, 4) [f64 2; f64 5; f64 4; f64 2])) /\
  vdata (Vol (1, 1, 4) [f64 2; f64 5; f64 4; f64 2]) =
    zip_with (fun (m : bool) x => if m then x else nzero) (vdata all_four)
             [f64 2; f64 5; f64 4; f64 2].
Proof.
  assert (E : find_most_peak_values four_peaks all_four 4 =
              Ok (Some (2, Vol (1, 1, 4) [f64 2; f64 5; f64 4; f64 2])))
    by (vm_compute; reflexivity).
  split; [exact E|].
  destruct (@peak_alignment_keeps_mask_at_dominant_timestep _ _ four_peaks all_four 4)
    as (_ & _ & Hs).
  - reflexivity.
  - repeat constructor.
  - destruct (Hs 2 (Vol (1, 1, 4) [f64 2; f64 5; f64 4; f64 2]) E)
      as (_ & _ & _ & _ & fr & Efr & Edata).
    injection Efr as <-. exact Edata.
Defined.

(** C3 as stated fails twice on one input. The fourth voxel peaks at the
    last index of the window and is kept for the histogram; the first voxel
    peaks at index 1, not at the dominant timestep 2, and carries a
    non-zero value in the map that is returned. *)
Lemma peak_alignment_counterexample :
  (nth 3 (vdata all_four) false = true /\
   voxel_peak four_peaks 4 3 = 4 - 1 /\
   nth 3 (first_part_mask four_peaks all_four 4) false = true) /\
  (exists retain_voxels,
     find_most_peak_values four_peaks all_four 4 = Ok (Some (2, retain_voxels)) /\
     voxel_peak four_peaks 4 0 = 1 /\
     neqb (nth 0 (vdata retain_voxels) nzero) nzero = false).
Proof.
  split; [repeat split; vm_compute; reflexivity|].
  exists (Vol (1, 1, 4) [f64 2; f64 5; f64 4; f64 2]).
  repeat split; vm_compute; reflexivity.
Qed.

(** ** Order of binary64 *)

Lemma f64_ltb_leb (a b : float64) : nltb a b = true -> nleb a b = true.
Proof. cbn. unfold SFltb, SFleb. now destruct (SFcompare a b) as [[]|]. Qed.

Lemma f64_compare_refl (a : float64) : a <> S754_nan -> SFcompare a a = Some Eq.
Proof.
  destruct a as [s|s| |s m e]; intros Hn; try congruence; simpl.
  - reflexivity.
  - now destruct s.
  - rewrite Z.compare_refl, Pos.compare_cont_refl. now destruct s.
Qed.

Lemma f64_isnan_false (a : float64) : nisnan a = false <-> a <> S754_nan.
Proof.
  unfold nisnan; cbn. unfold SFeqb. split.
  - intros E ->. discriminate E.
  - intros Hn. now rewrite f64_compare_refl.
Qed.

Lemma f64_leb_refl (a : float64) : nisnan a = false -> nleb a a = true.
Proof.
  intros Hn. apply f64_isnan_false in Hn. cbn. unfold SFleb.
  now rewrite f64_compare_refl.
Qed.

Lemma f64_ltb_not_nan (a b : float64) : nltb a b = true -> nisnan a = false.
Proof.
  intros E. apply f64_isnan_false. intros ->. discriminate E.
Qed.

Lemma f64_leb_trans (a b c : float64) :
  nleb a b = true -> nleb b c = true -> nleb a c = true.
Proof.
  cbn. unfold SFleb.
  destruct a as [sa|sa| |sa ma ea], b as [sb|sb| |sb mb eb], c as [sc|sc| |sc mc ec];
    simpl; try destruct sa; try destruct sb; try destruct sc; simpl;
    try (intros; reflexivity); try (intros; discriminate);
    change (Pos.compare_cont Eq) with Pos.compare;
    destruct (Z.compare_spec ea eb), (Z.compare_spec eb ec), (Z.compare_spec ea ec);
    subst; try lia; simpl; try (intros; reflexivity); try (intros; discriminate);
    destruct (Pos.compare_spec ma mb), (Pos.compare_spec mb mc), (Pos.compare_spec ma mc);
    subst; try lia; simpl; intros; reflexivity || discriminate.
Qed.

Lemma f64_leb_total (a b : float64) :
  nisnan a = false -> nisnan b = false -> nltb a b = false -> nleb b a = true.
Proof.
  intros Ha Hb. apply f64_isnan_false in Ha, Hb. cbn. unfold SFltb, SFleb.
  destruct a as [sa|sa| |sa ma ea], b as [sb|sb| |sb mb eb]; try congruence;
    simpl; try destruct sa; try destruct sb; simpl;
    try (intros; reflexivity); try (intros; discriminate);
    change (Pos.compare_cont Eq) with Pos.compare;
    destruct (Z.compare_spec ea eb), (Z.compare_spec eb ea);
    subst; try lia; simpl; try (intros; reflexivity); try (intros; discriminate);
    destruct (Pos.compare_spec ma mb), (Pos.compare_spec mb ma);
    subst; try lia; simpl; intros; reflexivity || discriminate.
Qed.

(** ** The two refinement attempts *)

Section Refinement.
Variable lib : externals float64.
Variables (dce_rel : series float64) (half : Z).

(** Step 5 either accepts the dilated mask, on a fit of strictly lower
    cost, or keeps the mask and the cost it was given. *)
Lemma erosion_dilation_stage_cases (mask mask1 : vol Z) (c0 c1 : float64) :
  erosion_dilation_stage lib dce_rel half mask c0 = Ok (mask1, c1) ->
  (exists solution,
      dilated_fit lib dce_rel half mask = Ok solution /\ nltb (cost solution) c0 = true /\
      mask1 = dilated_mask lib mask /\ c1 = cost solution) \/
  (mask1 = mask /\ c1 = c0).
Proof.
  change (erosion_dilation_stage lib dce_rel half mask c0)
    with (try_except_ValueError
            (bind (dilated_fit lib dce_rel half mask)
                  (fun solution =>
                     if nltb (cost solution) c0
                     then Ok (dilated_mask lib mask, cost solution)
                     else Ok (mask, c0)))
            (Ok (mask, c0))).
  destruct (dilated_fit lib dce_rel half mask) as [solution | e] eqn:Ef; cbn [bind try_except_ValueError].
  - destruct (nltb (cost solution) c0) eqn:L; intros [= <- <-].
    + left. exists solution. repeat split; assumption || reflexivity.
    + right. split; reflexivity.
  - destruct e; try discriminate. intros [= <- <-]. right. split; reflexivity.
Qed.

Lemma region_growing_stage_cases (mask mask2 : vol Z) (c1 c2 : float64) :
  region_growing_stage lib dce_rel half mask c1 = Ok (mask2, c2) ->
  (exists m solution,
      grow_region lib dce_rel mask = Ok m /\
      grown_fit lib dce_rel half m = Ok solution /\ nltb (cost solution) c1 = true /\
      mask2 = vol_map b2z m /\ c2 = cost solution) \/
  (mask2 = mask /\ c2 = c1).
Proof.
  unfold region_growing_stage.
  destruct (grow_region lib dce_rel mask) as [m | e] eqn:Em; cbn [bind]; [|discriminate].
  change (fit_mask lib dce_rel half (vdata m) (Z.of_nat (count_nonzero m)))
    with (grown_fit lib dce_rel half m).
  destruct (grown_fit lib dce_rel half m) as [solution | e] eqn:Ef; cbn [bind]; [|discriminate].
  destruct (nltb (cost solution) c1) eqn:L; intros [= <- <-].
  - left. exists m, solution. repeat split; assumption || reflexivity.
  - right. split; reflexivity.
Qed.

(** A [ValueError] of the fit in step 5 is caught: mask and cost stay. *)
Lemma erosion_dilation_absorbs_fit_failure (mask : vol Z) (c0 : float64) :
  dilated_fit lib dce_rel half mask = Raise ValueError ->
  erosion_dilation_stage lib dce_rel half mask c0 = Ok (mask, c0).
Proof.
  intros E.
  change (erosion_dilation_stage lib dce_rel half mask c0)
    with (try_except_ValueError
            (bind (dilated_fit lib dce_rel half mask)
                  (fun solution =>
                     if nltb (cost solution) c0
                     then Ok (dilated_mask lib mask, cost solution)
                     else Ok (mask, c0)))
            (Ok (mask, c0))).
  now rewrite E.
Qed.

Lemma region_growing_fit_failure (mask : vol Z) (c1 : float64) (m : vol bool) (e : exn) :
  grow_region lib dce_rel mask = Ok m ->
  grown_fit lib dce_rel half m = Raise e ->
  region_growing_stage lib dce_rel half mask c1 = Raise e.
Proof.
  intros Em Ef. unfold region_growing_stage. rewrite Em. cbn [bind].
  change (fit_mask lib dce_rel half (vdata m) (Z.of_nat (count_nonzero m)))
    with (grown_fit lib dce_rel half m).
  now rewrite Ef.
Qed.

Lemma mask_refiner_costs (mask : vol Z) (c0 : float64) (r : refinement float64) :
  nisnan c0 = false ->
  mask_refiner lib dce_rel half mask c0 = Ok r ->
  nleb (refined_cost_after_dilation r) c0 = true /\
  nleb (refined_cost_after_region_growing r) (refined_cost_after_dilation r) = true /\
  (mask_after_dilation r <> mask ->
   nltb (refined_cost_after_dilation r) c0 = true) /\
  (mask_after_region_growing r <> mask_after_dilation r ->
   nltb (refined_cost_after_region_growing r) (refined_cost_after_dilation r) = true).
Proof.
  intros Hc0. unfold mask_refiner.
  destruct (erosion_dilation_stage lib dce_rel half mask c0) as [[mask1 c1] | e] eqn:E1;
    cbn [bind]; [|discriminate].
  destruct (region_growing_stage lib dce_rel half mask1 c1) as [[mask2 c2] | e] eqn:E2;
    cbn [bind]; [|discriminate].
  intros [= <-].
  cbn [refined_cost_after_dilation refined_cost_after_region_growing
       mask_after_dilation mask_after_region_growing].
  apply erosion_dilation_stage_cases in E1.
  apply region_growing_stage_cases in E2.
  assert (Hc1 : nisnan c1 = false).
  { destruct E1 as [(s & _ & L & _ & ->) | (_ & ->)];
      [now apply f64_ltb_not_nan in L | exact Hc0]. }
  repeat split.
  - destruct E1 as [(s & _ & L & _ & ->) | (_ & ->)];
      [now apply f64_ltb_leb | now apply f64_leb_refl].
  - destruct E2 as [(m & s & _ & _ & L & _ & ->) | (_ & ->)];
      [now apply f64_ltb_leb | now apply f64_leb_refl].
  - intros Hm. destruct E1 as [(s & _ & L & _ & ->) | (-> & _)];
      [exact L | congruence].
  - intros Hm. destruct E2 as [(m & s & _ & _ & L & _ & ->) | (-> & _)];
      [exact L | congruence].
Qed.
End Refinement.

(** The least cost [df['cost'].min()] is a number. *)
Lemma nanargmin_from_not_nan {A} `{Number A} (l : list (option A)) :
  forall best besti i k c,
    nisnan best = false ->
    nanargmin_from best besti i l = (k, c) ->
    nisnan c = false.
Proof.
  induction l as [|o l IH]; intros best besti i k c Hb; simpl.
  - now intros [= _ <-].
  - unfold skipna. destruct o as [v|]; [|now apply IH].
    destruct (nisnan v) eqn:Nv; [now apply IH|].
    destruct (nltb v best); now apply IH.
Qed.

Lemma nanargmin_not_nan {A} `{Number A} (l : list (option A)) :
  forall i k c, nanargmin i l = Some (k, c) -> nisnan c = false.
Proof.
  induction l as [|o l IH]; intros i k c; simpl; [discriminate|].
  unfold skipna. destruct o as [v|]; [|now apply IH].
  destruct (nisnan v) eqn:Nv; [now apply IH|].
  destruct (nanargmin_from v i (i + 1) l) as [k' c'] eqn:E.
  intros [= <- <-]. exact (nanargmin_from_not_nan l v i (i + 1) Nv E).
Qed.

(** And it is least among the costs of the fitted candidates. *)
Lemma nanargmin_from_least (l : list (option float64)) :
  forall best besti i k c,
    nisnan best = false ->
    nanargmin_from best besti i l = (k, c) ->
    nleb c best = true /\
    forall v, In (Some v) l -> nisnan v = false -> nleb c v = true.
Proof.
  induction l as [|o l IH]; intros best besti i k c Hb; cbn [nanargmin_from].
  - intros [= _ <-]. split; [now apply f64_leb_refl | contradiction].
  - unfold skipna. destruct o as [v|].
    + destruct (nisnan v) eqn:Nv.
      * intros E. destruct (IH _ _ _ _ _ Hb E) as [H1 H2]. split; [exact H1|].
        intros v0 [[= <-] | Hin] Hv0; [congruence | now apply H2].
      * destruct (nltb v best) eqn:L; intros E.
        -- destruct (IH _ _ _ _ _ Nv E) as [H1 H2]. split.
           ++ apply f64_leb_trans with v; [exact H1 | now apply f64_ltb_leb].
           ++ intros v0 [[= <-] | Hin] Hv0; [exact H1 | now apply H2].
        -- destruct (IH _ _ _ _ _ Hb E) as [H1 H2]. split; [exact H1|].
           intros v0 [[= <-] | Hin] Hv0; [|now apply H2].
           apply f64_leb_trans with best; [exact H1 | now apply f64_leb_total].
    + intros E. destruct (IH _ _ _ _ _ Hb E) as [H1 H2]. split; [exact H1|].
      intros v0 [Hd | Hin] Hv0; [discriminate | now apply H2].
Qed.

Lemma nanargmin_least (l : list (option float64)) :
  forall i k c,
    nanargmin i l = Some (k, c) ->
    forall v, In (Some v) l -> nisnan v = false -> nleb c v = true.
Proof.
  induction l as [|o l IH]; intros i k c; cbn [nanargmin]; [discriminate|].
  unfold skipna. destruct o as [v|].
  - destruct (nisnan v) eqn:Nv.
    + intros E v0 [[= <-] | Hin] Hv0; [congruence | now apply (IH _ _ _ E)].
    + destruct (nanargmin_from v i (i + 1) l) as [k' c'] eqn:E.
      intros [= <- <-]. destruct (nanargmin_from_least l v i (i + 1) Nv E) as [H1 H2].
      intros v0 [[= <-] | Hin] Hv0; [exact H1 | now apply H2].
  - intros E v0 [Hd | Hin] Hv0; [discriminate | now apply (IH _ _ _ E)].
Qed.

(** C1: the best cost never increases through the refinement. The cost after
    erosion and dilation is at most the least fit cost of the candidates,
    hence at most the cost of every fitted candidate; the cost after region
    growing is at most the cost after dilation; and a mask is replaced only
    on a refit of strictly lower cost. *)
Theorem best_cost_never_increases
    (lib : externals float64) (dce_rel : series float64) (half : Z) (mask : vol Z)
    (df_cost : list (option float64)) (best_fit : Z) (df_cost_min : float64)
    (r : refinement float64) :
  nanargmin 0 df_cost = Some (best_fit, df_cost_min) ->
  mask_refiner lib dce_rel half mask df_cost_min = Ok r ->
  (forall v, In (Some v) df_cost -> nisnan v = false ->
             nleb (refined_cost_after_dilation r) v = true) /\
  nleb (refined_cost_after_dilation r) df_cost_min = true /\
  nleb (refined_cost_after_region_growing r) (refined_cost_after_dilation r) = true /\
  (mask_after_dilation r <> mask ->
   nltb (refined_cost_after_dilation r) df_cost_min = true) /\
  (mask_after_region_growing r <> mask_after_dilation r ->
   nltb (refined_cost_after_region_growing r) (refined_cost_after_dilation r) = true).
Proof.
  intros Emin Er.
  pose proof (nanargmin_not_nan _ _ Emin) as Hc.
  eapply mask_refiner_costs in Er; [|exact Hc].
  destruct Er as (H1 & H2 & H3 & H4).
  split; [|now repeat split].
  intros v Hin Hv. apply f64_leb_trans with df_cost_min; [exact H1|].
  exact (nanargmin_least _ _ Emin v Hin Hv).
Qed.

Lemma best_cost_never_increases_witness :
  let r := Refinement (Vol (1, 1, 2) [1; 1]) (f64 100)
                      (Vol (1, 1, 2) [1; 0])
                      (S754_finite false 4785074604081152 (-52)) in
  mask_refiner toy_externals early_bolus 2 both_voxels (f64 100) = Ok r /\
  nleb (refined_cost_after_dilation r) (f64 100) = true /\
  nleb (refined_cost_after_region_growing r) (refined_cost_after_dilation r) = true.
Proof.
  intros r.
  assert (Hmin : nanargmin 0 [None; Some (f64 100); Some (f64 250)] = Some (1, f64 100))
    by (vm_compute; reflexivity).
  assert (Hr : mask_refiner toy_externals early_bolus 2 both_voxels (f64 100) = Ok r)
    by (vm_compute; reflexivity).
  split; [exact Hr|].
  destruct (@best_cost_never_increases toy_externals early_bolus 2 both_voxels
              [None; Some (f64 100); Some (f64 250)] 1 (f64 100) r Hmin Hr)
    as (_ & H1 & H2 & _).
  split; [exact H1 | exact H2].
Defined.

(** The three costs of the diagnostic row, for a run that returns. *)
Lemma pipeline_costs_never_increase
    (lib : externals float64) (dce : series float64)
    (Cb : list float64) (row : cost_row float64) :
  find_deterministic_aif lib dce = Ok (Cb, row) ->
  nleb (cost_after_dilation row) (row_cost row) = true /\
  nleb (cost_after_region_growing row) (cost_after_dilation row) = true.
Proof.
  unfold find_deterministic_aif.
  destruct (relative_concentration_map dce 5 (nofZ 1) "abs") as [dce_rel|]; cbn [bind];
    [|discriminate].
  destruct (select_brightest_voxels dce_rel 20 (nofZ 2)) as [bv|]; cbn [bind];
    [|discriminate].
  destruct (alignment_stage dce_rel (select_binary_opening bv)); cbn [bind];
    [|discriminate].
  unfold extract_fit_refine.
  destruct (find_promising_objects _ 1000) as [[masks boxes] list_of_index].
  destruct (fit_candidates _ _ _ _ _ _) as [df_cost|]; cbn [bind]; [|discriminate].
  destruct (nanargmin 0 df_cost) as [[best_fit c0]|] eqn:Emin; [|discriminate].
  destruct (mask_refiner _ _ _ _ _) as [r|] eqn:Er; cbn [bind]; [|discriminate].
  destruct (temporal_clustering _ _ _); cbn [bind]; [|discriminate].
  destruct (savefig _ _ _); cbn [bind]; [|discriminate].
  intros [= _ <-]. cbn [row_cost cost_after_dilation cost_after_region_growing].
  apply nanargmin_not_nan in Emin.
  eapply mask_refiner_costs in Er; [|exact Emin].
  destruct Er as (H1 & H2 & _). now split.
Qed.

(** C6, as the code has it: the fit of step 6 is not guarded. When the fit
    of the flood-filled region raises, the error leaves the region-growing
    stage and the refinement; only the fit of step 5 is caught. *)
Theorem region_growing_fit_failure_propagates
    (lib : externals float64) (dce_rel : series float64) (half : Z)
    (mask mask1 : vol Z) (df_cost_min c1 : float64) (m : vol bool) :
  erosion_dilation_stage lib dce_rel half mask df_cost_min = Ok (mask1, c1) ->
  grow_region lib dce_rel mask1 = Ok m ->
  grown_fit lib dce_rel half m = Raise ValueError ->
  region_growing_stage lib dce_rel half mask1 c1 = Raise ValueError /\
  mask_refiner lib dce_rel half mask df_cost_min = Raise ValueError.
Proof.
  intros E1 Em Ef.
  assert (E2 : region_growing_stage lib dce_rel half mask1 c1 = Raise ValueError)
    by (eapply region_growing_fit_failure; eassumption).
  split; [exact E2|]. unfold mask_refiner. rewrite E1. cbn [bind]. now rewrite E2.
Qed.

Lemma region_growing_fit_failure_propagates_witness :
  region_growing_stage toy_externals late_nan 21 last_two_voxels (f64 10) =
    Raise ValueError /\
  mask_refiner toy_externals late_nan 21 last_two_voxels (f64 10) = Raise ValueError.
Proof.
  apply (@region_growing_fit_failure_propagates toy_externals late_nan 21
           last_two_voxels last_two_voxels (f64 10) (f64 10)
           (Vol (1, 1, 3) [true; false; false]));
    vm_compute; reflexivity.
Defined.

(** An error of the refinement is the outcome of the whole run: nothing
    between step 6 and the caller catches it. *)
Lemma refinement_failure_reaches_the_caller {A} `{Number A}
    (lib : externals A) (dce dce_rel : series A) (binary_opening : vol bool)
    (df_cost : list (option A)) (best_fit : Z) (df_cost_min : A) (e : exn) :
  let label_im := skimage_label lib binary_opening in
  let half := Z.of_nat (List.length (timeline dce_rel)) / 2 in
  fit_candidates lib dce_rel label_im half
    (list_of_index_of (skimage_regionprops lib label_im) 1000)
    (repeat None (List.length (skimage_regionprops lib label_im))) = Ok df_cost ->
  nanargmin 0 df_cost = Some (best_fit, df_cost_min) ->
  mask_refiner lib dce_rel half
    (vol_map (fun l => b2z (l =? best_fit + 1)) label_im) df_cost_min = Raise e ->
  extract_fit_refine lib dce dce_rel binary_opening = Raise e.
Proof.
  intros label_im half Efit Emin Eref. unfold extract_fit_refine.
  fold label_im. fold half. unfold list_of_index_of in Efit.
  destruct (find_promising_objects (skimage_regionprops lib label_im) 1000)
    as [[masks boxes] list_of_index].
  cbn [snd] in Efit. rewrite Efit. cbn [bind]. rewrite Emin, Eref. reflexivity.
Qed.

(** ** The orchestrator and step 3 *)

(** C2, as the code has it: when the first window puts the dominant timestep
    on a boundary the orchestrator tries the window of 30 samples, once, and
    whatever that second attempt returns, a timestep or none, the run goes
    on with steps 4 to 7 on the opened mask: a second failure is not
    reported. Only an exception raised inside the second attempt ends the
    run. *)
Theorem alignment_failure_is_not_reported {A} `{Number A}
    (lib : externals A) (dce dce_rel : series A) (brightest_voxels : vol bool) :
  relative_concentration_map dce 5 (nofZ 1) "abs" = Ok dce_rel ->
  select_brightest_voxels dce_rel 20 (nofZ 2) = Ok brightest_voxels ->
  find_most_peak_values dce_rel (select_binary_opening brightest_voxels) 20 = Ok None ->
  alignment_stage dce_rel (select_binary_opening brightest_voxels) =
    find_most_peak_values dce_rel (select_binary_opening brightest_voxels) 30 /\
  (forall second,
     find_most_peak_values dce_rel (select_binary_opening brightest_voxels) 30 = Ok second ->
     find_deterministic_aif lib dce =
     extract_fit_refine lib dce dce_rel (select_binary_opening brightest_voxels)) /\
  (forall e,
     find_most_peak_values dce_rel (select_binary_opening brightest_voxels) 30 = Raise e ->
     find_deterministic_aif lib dce = Raise e).
Proof.
  intros Erel Ebv E20.
  assert (Ea : alignment_stage dce_rel (select_binary_opening brightest_voxels) =
               find_most_peak_values dce_rel (select_binary_opening brightest_voxels) 30).
  { unfold alignment_stage. rewrite E20. reflexivity. }
  split; [exact Ea|].
  split; [intros second E30 | intros e E30];
    unfold find_deterministic_aif; rewrite Erel; cbn [bind]; rewrite Ebv; cbn [bind];
    rewrite Ea, E30; reflexivity.
Qed.

Lemma alignment_failure_is_not_reported_witness :
  alignment_stage uniform_concentration (select_binary_opening empty_selection) = Ok None /\
  find_deterministic_aif toy_externals uniform_volume =
  extract_fit_refine toy_externals uniform_volume uniform_concentration
                     (select_binary_opening empty_selection).
Proof.
  destruct (@alignment_failure_is_not_reported _ _ toy_externals uniform_volume
              uniform_concentration empty_selection) as (Ea & Hgo & _);
    try (vm_compute; reflexivity).
  assert (E30 : find_most_peak_values uniform_concentration
                  (select_binary_opening empty_selection) 30 = Ok None)
    by (vm_compute; reflexivity).
  split; [now rewrite Ea | exact (Hgo None E30)].
Defined.

(** ** Brightest-voxel thresholding and the percentile *)

Lemma insert_sorted_length {A} `{Number A} (x : A) (l : list A) :
  List.length (insert_sorted x l) = S (List.length l).
Proof.
  induction l as [|z l IH]; simpl; [reflexivity|].
  destruct (sort_lt z x); simpl; [now rewrite IH | reflexivity].
Qed.

Lemma np_sort_length {A} `{Number A} (l : list A) :
  List.length (np_sort l) = List.length l.
Proof.
  induction l as [|x l IH]; simpl; [reflexivity|].
  now rewrite insert_sorted_length, IH.
Qed.








(** * Further properties of the stages *)

(** ** The concentration mapper: shape, mode and empty baseline *)

Lemma fold_zip_with_length {A : Type} (f : A -> A -> A) (n : nat) (fs : list (list A)) :
  Forall (fun fr => List.length fr = n) fs ->
  forall acc, List.length acc = n ->
              List.length (fold_left (zip_with f) fs acc) = n.
Proof.
  induction 1 as [|fr fs Hfr _ IH]; intros acc Hacc; simpl; [exact Hacc|].
  apply IH. rewrite zip_with_length; congruence.
Qed.

Lemma sum_axis0_length {A} `{Number A} (n : nat) (fs : list (list A)) :
  Forall (fun fr => List.length fr = n) fs -> List.length (sum_axis0 n fs) = n.
Proof.
  intros Hfs. unfold sum_axis0. apply fold_zip_with_length; [exact Hfs|].
  apply repeat_length.
Qed.

Lemma Forall_zip_with {A B C : Type} (P : C -> Prop) (f : A -> B -> C)
    (xs : list A) (ys : list B) :
  (forall x y, In x xs -> In y ys -> P (f x y)) -> Forall P (zip_with f xs ys).
Proof.
  revert ys; induction xs as [|x xs IH]; intros [|y ys] Hf; simpl; try constructor.
  - apply Hf; now left.
  - apply IH. intros x' y' Hx Hy. apply Hf; now right.
Qed.

(** X1: the concentration mapper keeps the shape of a well-shaped series:
    for every baseline length the slice accepts, and every mode, it returns
    the same spatial shape, timeline and number of samples, and one value
    per voxel in every sample. *)
Theorem concentration_map_keeps_shape {A} `{Number A}
    (im : series A) (baseline : Z) (k : A) (option : string) :
  well_shaped im ->
  0 <= baseline \/ - series_len im < baseline ->
  exists v,
    relative_concentration_map im baseline k option = Ok v /\
    spatial v = spatial im /\ timeline v = timeline im /\
    List.length (frames v) = List.length (frames im) /\ well_shaped v.
Proof.
  intros Hws Hb. unfold relative_concentration_map.
  rewrite (series_slice_to_returns _ Hb). cbn [bind].
  eexists. split; [reflexivity|].
  cbn [spatial timeline frames]. repeat split.
  - rewrite length_map, zip_with_length; [reflexivity | now rewrite length_map].
  - unfold well_shaped; cbn [spatial frames].
    set (n := nvoxels (spatial im)).
    assert (Him0 : List.length (mean_axis0 n (slice_to baseline (frames im))) = n).
    { unfold mean_axis0. rewrite length_map. apply sum_axis0_length.
      unfold slice_to. now apply Forall_firstn_keeps. }
    apply Forall_map. apply Forall_zip_with. intros z fr Hz Hfr.
    rewrite length_map.
    apply in_map_iff in Hz. destruct Hz as (_ & <- & _).
    unfold well_shaped in Hws. rewrite Forall_forall in Hws. specialize (Hws fr Hfr).
    unfold relative_frame.
    destruct (String.eqb _ "ABS"); [rewrite zip_with_length; unfold n in *; congruence|].
    destruct (String.eqb _ "REL"); [rewrite zip_with_length; unfold n in *; congruence|].
    apply repeat_length.
Qed.

Lemma concentration_map_keeps_shape_witness :
  exists v,
    relative_concentration_map three_sample_series (-1) (f64 1) "rel" = Ok v /\
    spatial v = (1, 1, 2) /\ timeline v = [f64 0; f64 60; f64 120] /\
    List.length (frames v) = 3%nat /\ well_shaped v.
Proof.
  apply (@concentration_map_keeps_shape _ _ three_sample_series (-1) (f64 1) "rel").
  - repeat constructor.
  - right. vm_compute. reflexivity.
Defined.

Lemma upper_char_idempotent (c : ascii) : upper_char (upper_char c) = upper_char c.
Proof. destruct c as [[] [] [] [] [] [] [] []]; reflexivity. Qed.

Lemma upper_idempotent (s : string) : upper (upper s) = upper s.
Proof. induction s as [|c s IH]; simpl; [reflexivity | now rewrite upper_char_idempotent, IH]. Qed.

Lemma lstrip_idempotent (s : string) : lstrip (lstrip s) = lstrip s.
Proof.
  induction s as [|c s IH]; simpl; [reflexivity|].
  destruct (is_space c) eqn:E; [exact IH | simpl; now rewrite E].
Qed.

Lemma rstrip_idempotent (s : string) : rstrip (rstrip s) = rstrip s.
Proof.
  induction s as [|c s IH]; simpl; [reflexivity|].
  destruct (rstrip s) as [|c' r] eqn:E.
  - destruct (is_space c) eqn:Ec; simpl; [reflexivity | now rewrite Ec].
  - change (rstrip (String c (String c' r))) with
      (match rstrip (String c' r) with
       | EmptyString => if is_space c then EmptyString else String c EmptyString
       | r0 => String c r0
       end).
    now rewrite IH.
Qed.

(** Stripping on the right keeps a leading character that is not a space. *)
Lemma lstrip_rstrip (s : string) : lstrip s = s -> lstrip (rstrip s) = rstrip s.
Proof.
  destruct s as [|c s]; [reflexivity|]. simpl.
  destruct (is_space c) eqn:Ec.
  - intros E. exfalso.
    assert (L : forall t, (String.length (lstrip t) <= String.length t)%nat).
    { induction t as [|a t IHt]; simpl; [lia|].
      destruct (is_space a); simpl; lia. }
    specialize (L s). rewrite E in L. simpl in L. lia.
  - intros _. destruct (rstrip s); simpl; now rewrite Ec.
Qed.

Lemma strip_idempotent (s : string) : strip (strip s) = strip s.
Proof.
  unfold strip. rewrite lstrip_rstrip by apply lstrip_idempotent.
  apply rstrip_idempotent.
Qed.

(** X2: the mode is matched without regard to case and to surrounding
    whitespace: a mode string and its stripped upper-case form give the same
    volume. *)
Theorem concentration_mode_is_normalised {A} `{Number A}
    (im : series A) (baseline : Z) (k : A) (option : string) :
  relative_concentration_map im baseline k option =
  relative_concentration_map im baseline k (strip (upper option)).
Proof.
  unfold relative_concentration_map, relative_frame.
  assert (E : strip (upper (strip (upper option))) = strip (upper option)).
  { rewrite (strip_upper (strip (upper option))), strip_idempotent.
    now rewrite <- strip_upper, upper_idempotent. }
  now rewrite E.
Qed.

Lemma f64_nan_propagates (k x : float64) :
  clamp_negative (nmul k (nsub x F64.nan)) = F64.nan /\
  clamp_negative (ndiv (nmul k (nsub x F64.nan)) F64.nan) = F64.nan.
Proof.
  assert (E : nsub x F64.nan = F64.nan) by now destruct x.
  rewrite E. assert (E' : nmul k F64.nan = F64.nan) by now destruct k.
  rewrite E'. split; reflexivity.
Qed.

Lemma slice_to_empty {A : Type} (stop : Z) (l : list A) :
  stop = 0 \/ stop <= - Z.of_nat (List.length l) -> slice_to stop l = [].
Proof.
  intros Hs. unfold slice_to.
  destruct (stop <? 0) eqn:E.
  - apply Z.ltb_lt in E. replace (Z.max 0 (stop + Z.of_nat (List.length l))) with 0 by lia.
    reflexivity.
  - apply Z.ltb_ge in E. replace (Z.min stop (Z.of_nat (List.length l))) with 0 by lia.
    reflexivity.
Qed.

(** X3: a baseline length of 0 is not an error and not a zero baseline: the
    mean of no sample is NaN, and in both modes every value of the returned
    volume is NaN. *)
Theorem empty_baseline_gives_nan_volume
    (im : series float64) (k : float64) (option : string) :
  strip (upper option) = "ABS"%string \/ strip (upper option) = "REL"%string ->
  exists v,
    relative_concentration_map im 0 k option = Ok v /\
    all_values (fun x => x = F64.nan) v.
Proof.
  intros Hmode. unfold relative_concentration_map.
  rewrite series_slice_to_returns by (left; lia). cbn [bind].
  rewrite slice_to_empty by now left. eexists. split; [reflexivity|].
  unfold all_values; cbn [frames].
  apply Forall_map, Forall_zip_with. intros z fr _ _.
  apply Forall_map. unfold relative_frame.
  assert (Hnan : mean_axis0 (nvoxels (spatial im)) (@nil (list float64)) =
                 repeat F64.nan (nvoxels (spatial im))).
  { unfold mean_axis0, sum_axis0. cbn [fold_left List.length].
    now rewrite map_repeat. }
  rewrite Hnan.
  destruct Hmode as [-> | ->]; cbn [String.eqb];
    apply Forall_zip_with; intros x m _ Hm; apply repeat_spec in Hm; subst m;
    apply f64_nan_propagates.
Qed.

Lemma empty_baseline_gives_nan_volume_witness :
  exists v,
    relative_concentration_map three_sample_series 0 (f64 1) "abs" = Ok v /\
    all_values (fun x => x = F64.nan) v.
Proof.
  apply (@empty_baseline_gives_nan_volume three_sample_series (f64 1) "abs").
  left; reflexivity.
Defined.


(** ** Brightest-voxel thresholding: the range checks *)

(** X4: the thresholding checks its window and its percentile, in that
    order, and nothing else. Inside both ranges it returns a mask of the
    spatial shape of the series; outside either it raises [AssertionError]
    (also for a NaN percentile, which fails both comparisons). *)
Theorem brightest_voxels_range_checks {A} `{Number A}
    (dce : series A) (timesteps : Z) (percentile : A) :
  (0 < timesteps < series_len dce /\
   nltb nzero percentile = true /\ nltb percentile (nofZ 100) = true ->
   exists v,
     select_brightest_voxels dce timesteps percentile = Ok v /\
     vshape v = spatial dce /\
     (well_shaped dce -> List.length (vdata v) = nvoxels (spatial dce))) /\
  (~ 0 < timesteps < series_len dce \/
   nltb nzero percentile = false \/ nltb percentile (nofZ 100) = false ->
   select_brightest_voxels dce timesteps percentile = Raise AssertionError).
Proof.
  unfold select_brightest_voxels, py_assert. split.
  - intros ((H0 & H1) & Hp0 & Hp1).
    replace ((0 <? timesteps) && (timesteps <? series_len dce)) with true
      by (symmetry; apply andb_true_iff; split; now apply Z.ltb_lt).
    cbn [bind]. rewrite Hp0, Hp1. cbn [andb bind].
    eexists. split; [reflexivity|]. split; [reflexivity|].
    intros Hws. cbn [vdata]. rewrite !length_map. apply sum_axis0_length.
    unfold slice_to. now apply Forall_firstn_keeps.
  - intros [Ht | Hp].
    + replace ((0 <? timesteps) && (timesteps <? series_len dce)) with false; [reflexivity|].
      symmetry. apply andb_false_iff.
      destruct (Z.ltb_spec 0 timesteps); [|now left].
      destruct (Z.ltb_spec timesteps (series_len dce)); [lia | now right].
    + destruct ((0 <? timesteps) && (timesteps <? series_len dce)); [|reflexivity].
      cbn [bind].
      replace (nltb nzero percentile && nltb percentile (nofZ 100)) with false;
        [reflexivity|].
      symmetry. apply andb_false_iff. tauto.
Qed.

Lemma brightest_voxels_range_checks_witness :
  select_brightest_voxels three_sample_series 3 (f64 2) = Raise AssertionError /\
  select_brightest_voxels three_sample_series 2 (f64 100) = Raise AssertionError /\
  exists v, select_brightest_voxels three_sample_series 2 (f64 2) = Ok v /\
            vshape v = (1, 1, 2).
Proof.
  split; [|split].
  - apply (proj2 (brightest_voxels_range_checks three_sample_series 3 (f64 2))).
    left. vm_compute. intros [_ E]. discriminate E.
  - apply (proj2 (brightest_voxels_range_checks three_sample_series 2 (f64 100))).
    right; right. vm_compute; reflexivity.
  - destruct (proj1 (brightest_voxels_range_checks three_sample_series 2 (f64 2)))
      as (v & E & Hs & _).
    + split; [vm_compute; split; reflexivity|]. split; vm_compute; reflexivity.
    + exists v. split; [exact E | exact Hs].
Defined.

Lemma insert_sorted_permutation {A} `{Number A} (x : A) (l : list A) :
  Permutation (insert_sorted x l) (x :: l).
Proof.
  induction l as [|y l IH]; simpl; [apply Permutation_refl|].
  destruct (sort_lt y x); [|apply Permutation_refl].
  eapply Permutation_trans; [apply perm_skip, IH | apply perm_swap].
Qed.

Lemma np_sort_permutation {A} `{Number A} (l : list A) : Permutation (np_sort l) l.
Proof.
  induction l as [|x l IH]; simpl; [apply Permutation_refl|].
  eapply Permutation_trans; [apply insert_sorted_permutation | now apply perm_skip].
Qed.

Lemma filter_map_length {A : Type} (g : A -> bool) (l : list A) :
  List.length (filter (fun b : bool => b) (map g l)) = List.length (filter g l).
Proof.
  induction l as [|x l IH]; simpl; [reflexivity|].
  destruct (g x); simpl; now rewrite IH.
Qed.

(** ** Binary opening: what it keeps *)

Lemma shift_unshift (p d : coord) : shift (unshift p d) d = p.
Proof. destruct p as [[z y] x], d as [[dz dy] dx]. simpl. f_equal; [f_equal|]; lia. Qed.

Lemma unshift_shift (p d : coord) : unshift (shift p d) d = p.
Proof. destruct p as [[z y] x], d as [[dz dy] dx]. simpl. f_equal; [f_equal|]; lia. Qed.

Lemma get3_true_in_bounds (v : vol bool) (p : coord) :
  get3 false v p = true -> in_bounds (vshape v) p = true.
Proof. unfold get3. now destruct (in_bounds (vshape v) p). Qed.

Lemma binary_opening_at (s : structure) (v : vol bool) (p : coord) :
  get3 false (binary_opening s v) p = true <->
  exists d, In d s /\
            in_bounds (vshape v) (unshift p d) = true /\
            forall d', In d' s -> get3 false v (shift (unshift p d) d') = true.
Proof.
  unfold binary_opening. rewrite get3_binary_dilation. split.
  - intros E. apply andb_true_iff in E. destruct E as [_ E].
    apply existsb_exists in E. destruct E as (d & Hd & E).
    rewrite get3_binary_erosion in E. apply andb_true_iff in E. destruct E as [Hb E].
    exists d. split; [exact Hd|]. split; [exact Hb|].
    intros d' Hd'. rewrite forallb_forall in E. now apply E.
  - intros (d & Hd & Hb & Hall).
    assert (Hp : get3 false v p = true)
      by (rewrite <- (shift_unshift p d); now apply Hall).
    apply andb_true_iff. split; [now apply get3_true_in_bounds in Hp|].
    apply existsb_exists. exists d. split; [exact Hd|].
    rewrite get3_binary_erosion. apply andb_true_iff. split; [exact Hb|].
    apply forallb_forall. exact Hall.
Qed.

Lemma binary_opening_shrinks (s : structure) (v : vol bool) (p : coord) :
  get3 false (binary_opening s v) p = true -> get3 false v p = true.
Proof.
  intros E. apply binary_opening_at in E. destruct E as (d & Hd & _ & Hall).
  rewrite <- (shift_unshift p d). now apply Hall.
Qed.

(** X6: the opening only removes voxels. Its result has the shape of the
    mask, one value per voxel of that shape, and every voxel it sets is set
    in the mask. *)
Theorem opening_never_adds_a_voxel (voxels : vol bool) :
  vshape (select_binary_opening voxels) = vshape voxels /\
  List.length (vdata (select_binary_opening voxels)) = nvoxels (vshape voxels) /\
  forall p, get3 false (select_binary_opening voxels) p = true ->
            get3 false voxels p = true.
Proof.
  split; [reflexivity|]. split.
  - unfold select_binary_opening, binary_opening, binary_dilation, tabulate3.
    cbn [vdata vshape]. now rewrite length_map, length_seq.
  - intros p. apply binary_opening_shrinks.
Qed.

(** Eroding an opened mask gives the erosion of the mask. *)
Lemma erosion_of_opening (s : structure) (v : vol bool) (q : coord) :
  get3 false (binary_erosion s (binary_opening s v)) q =
  get3 false (binary_erosion s v) q.
Proof.
  rewrite !get3_binary_erosion.
  change (vshape (binary_opening s v)) with (vshape v).
  destruct (in_bounds (vshape v) q) eqn:Hb; [|reflexivity]. cbn [andb].
  apply Bool.eq_iff_eq_true. rewrite !forallb_forall. split.
  - intros Hall d' Hd'. apply (binary_opening_shrinks s). now apply Hall.
  - intros Hall d' Hd'. apply binary_opening_at.
    exists d'. split; [exact Hd'|]. rewrite unshift_shift. split; [exact Hb|exact Hall].
Qed.

Lemma binary_dilation_pointwise (s : structure) (v w : vol bool) :
  vshape v = vshape w ->
  (forall q, get3 false v q = get3 false w q) ->
  binary_dilation s v = binary_dilation s w.
Proof.
  intros Hs Hq. unfold binary_dilation, tabulate3. rewrite Hs. f_equal.
  apply map_ext; intros i. apply existsb_pointwise; intros d. apply Hq.
Qed.

(** X7: opening an opened mask changes nothing. *)
Theorem opening_is_idempotent (voxels : vol bool) :
  select_binary_opening (select_binary_opening voxels) = select_binary_opening voxels.
Proof.
  unfold select_binary_opening.
  set (s := generate_binary_structure 1).
  change (binary_opening s (binary_opening s voxels))
    with (binary_dilation s (binary_erosion s (binary_opening s voxels))).
  change (binary_opening s voxels) with (binary_dilation s (binary_erosion s voxels)) at 2.
  apply binary_dilation_pointwise; [reflexivity|].
  intros q. apply erosion_of_opening.
Qed.

(** X8: the opening is increasing: of two masks of one shape, the larger has
    the larger opening. *)
Theorem opening_is_increasing (small large : vol bool) :
  vshape small = vshape large ->
  (forall p, get3 false small p = true -> get3 false large p = true) ->
  forall p, get3 false (select_binary_opening small) p = true ->
            get3 false (select_binary_opening large) p = true.
Proof.
  intros Hs Hsub p E. unfold select_binary_opening in *.
  apply binary_opening_at in E. destruct E as (d & Hd & Hb & Hall).
  apply binary_opening_at. exists d. split; [exact Hd|].
  split; [now rewrite <- Hs|]. intros d' Hd'. now apply Hsub, Hall.
Qed.

Lemma opening_is_increasing_witness :
  get3 false (select_binary_opening (tabulate3 (3, 3, 3) (fun _ => true))) (1, 1, 1) = true.
Proof.
  apply (@opening_is_increasing cross_mask (tabulate3 (3, 3, 3) (fun _ => true)));
    [reflexivity | | vm_compute; reflexivity].
  intros p Hp. pose proof (get3_true_in_bounds _ _ Hp) as Hb.
  rewrite get3_tabulate3. unfold cross_mask in Hb. cbn [vshape] in Hb. now rewrite Hb.
Defined.


(** ** Peak alignment: the empty mask and the single shared peak *)

Lemma select_none {A : Type} (n : nat) (a : list A) : select (repeat false n) a = [].
Proof. revert a; induction n as [|n IH]; intros [|x a]; simpl; auto. Qed.

Lemma select_all_false {A : Type} (mask : list bool) (a : list A) :
  Forall (fun b => b = false) mask -> select mask a = [].
Proof.
  intros Hm; revert a; induction Hm as [|b mask -> _ IH]; intros [|x a]; simpl; auto.
Qed.

Lemma columns_of_empty_rows {A : Type} (rows : list (list A)) :
  Forall (fun r => r = []) rows -> columns rows = [].
Proof.
  induction 1 as [|r rows -> _ IH]; [reflexivity|].
  destruct rows; reflexivity.
Qed.

Lemma argmax_from_keeps (l : list Z) (best besti i : Z) :
  Forall (fun x => x <= best) l ->
  argmax_from Z.leb (fun _ => false) best besti i l = besti.
Proof.
  intros Hl; revert i; induction Hl as [|x l Hx _ IH]; intros i; simpl; [reflexivity|].
  replace (x <=? best) with true by (symmetry; now apply Z.leb_le). apply IH.
Qed.

(** X9: a mask that holds no voxel is not an error for the aligner: with a
    window of at least one sample it returns no timestep and no map. *)
Theorem peak_alignment_of_empty_mask {A} `{Number A}
    (dce : series A) (mask : vol bool) (timesteps : Z) :
  Forall (fun b => b = false) (vdata mask) ->
  0 < timesteps ->
  frames dce <> [] ->
  find_most_peak_values dce mask timesteps = Ok None.
Proof.
  intros Hmask Ht Hfr. unfold find_most_peak_values.
  destruct (slice_to timesteps (frames dce)) as [|fr0 w] eqn:W.
  - exfalso. unfold slice_to in W.
    destruct (frames dce) as [|f fs]; [congruence|].
    replace (timesteps <? 0) with false in W by (symmetry; apply Z.ltb_ge; lia).
    destruct (Z.to_nat (Z.min timesteps (Z.of_nat (List.length (f :: fs))))) eqn:E;
      [cbn [List.length] in E; lia | discriminate W].
  - replace (timesteps <=? 0) with false by (symmetry; apply Z.leb_gt; lia).
    assert (Hfp : first_part_mask dce mask timesteps = repeat false (nvoxels (spatial dce))).
    { unfold first_part_mask, peak_indices. rewrite W.
      rewrite columns_of_empty_rows.
      - simpl. apply put_mask_nil.
      - apply Forall_map, Forall_forall. intros r _. now apply select_all_false. }
    rewrite Hfp. unfold peak_indices.
    rewrite columns_of_empty_rows
      by (apply Forall_map, Forall_forall; intros r _; apply select_none).
    cbn [map np_histogram].
    assert (E0 : argmax_Z (map (fun _ : Z => 0) (zrange timesteps)) = 0).
    { unfold argmax_Z. destruct (map (fun _ : Z => 0) (zrange timesteps)) as [|x l] eqn:El;
        [reflexivity|].
      assert (Hall : Forall (fun v => v = 0) (x :: l)).
      { rewrite <- El. apply Forall_map, Forall_forall. reflexivity. }
      inversion Hall as [|? ? Hx Hl]; subst.
      apply argmax_from_keeps. eapply Forall_impl; [|exact Hl].
      intros a ->. lia. }
    rewrite E0. reflexivity.
Qed.

Lemma peak_alignment_of_empty_mask_witness :
  find_most_peak_values uniform_concentration empty_selection 20 = Ok None.
Proof.
  apply (@peak_alignment_of_empty_mask _ _ uniform_concentration empty_selection 20);
    [repeat constructor | lia | discriminate].
Defined.


Lemma put_mask_length {A : Type} (mask : list bool) (vals base : list A) :
  List.length (put_mask mask vals base) = List.length base.
Proof.
  revert vals base; induction mask as [|m mask IH]; intros vals [|b base]; simpl;
    try reflexivity.
  - now destruct m.
  - destruct m; [destruct vals|]; simpl; now rewrite IH.
Qed.

(** Values read under a mask all equal [p] when every masked position does. *)
Lemma select_constant {A : Type} (d p : A) (mask : list bool) (xs : list A) :
  List.length xs = List.length mask ->
  (forall j, nth j mask false = true -> nth j xs d = p) ->
  select mask xs = repeat p (List.length (filter (fun b : bool => b) mask)).
Proof.
  revert xs; induction mask as [|m mask IH]; intros [|x xs] E Hp; simpl in *;
    try congruence; try reflexivity.
  injection E as E.
  assert (Htl : forall j, nth j mask false = true -> nth j xs d = p)
    by (intros j Hj; exact (Hp (S j) Hj)).
  destruct m; simpl; [|now apply IH].
  rewrite (Hp 0%nat eq_refl). f_equal. now apply IH.
Qed.

Lemma fold_min_repeat (p : Z) (k : nat) : list_min p (repeat p k) = p.
Proof.
  unfold list_min. induction k as [|k IH]; simpl; [reflexivity|].
  now rewrite Z.min_id.
Qed.

Lemma fold_max_repeat (p : Z) (k : nat) : list_max p (repeat p k) = p.
Proof.
  unfold list_max. induction k as [|k IH]; simpl; [reflexivity|].
  now rewrite Z.max_id.
Qed.

Lemma filter_repeat_length {A : Type} (f : A -> bool) (x : A) (k : nat) :
  List.length (filter f (repeat x k)) = if f x then k else 0%nat.
Proof.
  induction k as [|k IH]; simpl; [now destruct (f x)|].
  destruct (f x); simpl; [now rewrite IH | exact IH].
Qed.

(** The histogram of samples that all equal [p]: one bin, the middle one,
    holds them all. *)
Lemma np_histogram_of_one_value (p bins : Z) (k : nat) :
  np_histogram (repeat p (S k)) bins =
  map (fun b => if bins / 2 =? b then Z.of_nat (S k) else 0) (zrange bins).
Proof.
  change (repeat p (S k)) with (p :: repeat p k). cbn [np_histogram].
  rewrite fold_min_repeat, fold_max_repeat.
  apply map_ext; intros b. unfold histogram_bin. rewrite Z.eqb_refl.
  change (p :: repeat p k) with (repeat p (S k)).
  rewrite filter_repeat_length. now destruct (bins / 2 =? b).
Qed.

(** The first index of the maximum, when one value exceeds all others. *)
Lemma argmax_from_spike (l1 l2 : list Z) (x best besti i : Z) :
  Forall (fun v => v <= best) l1 -> best < x -> Forall (fun v => v <= x) l2 ->
  argmax_from Z.leb (fun _ => false) best besti i (l1 ++ x :: l2) =
  i + Z.of_nat (List.length l1).
Proof.
  intros H1 Hx H2. revert i. induction H1 as [|v l1 Hv _ IH]; intros i.
  - cbn [app argmax_from].
    replace (x <=? best) with false by (symmetry; apply Z.leb_gt; lia).
    cbn [negb]. rewrite argmax_from_keeps by exact H2. simpl. lia.
  - cbn [app argmax_from].
    replace (v <=? best) with true by (symmetry; now apply Z.leb_le).
    cbn [negb]. rewrite IH. cbn [List.length]. lia.
Qed.

Lemma argmax_Z_spike (bins c k : Z) :
  0 <= c < bins -> 0 < k ->
  argmax_Z (map (fun b => if c =? b then k else 0) (zrange bins)) = c.
Proof.
  intros Hc Hk. unfold zrange.
  replace (Z.to_nat bins) with (Z.to_nat c + S (Z.to_nat (bins - c - 1)))%nat by lia.
  rewrite seq_app. cbn [seq]. rewrite !map_app. cbn [map].
  rewrite Nat.add_0_l, Z2Nat.id, Z.eqb_refl by lia.
  set (f := fun b : Z => if c =? b then k else 0).
  assert (Hl1 : Forall (fun v => v = 0) (map f (map Z.of_nat (seq 0 (Z.to_nat c))))).
  { apply Forall_map, Forall_map, Forall_forall. intros j Hj. apply in_seq in Hj.
    unfold f. replace (c =? Z.of_nat j) with false; [reflexivity|].
    symmetry. apply Z.eqb_neq. lia. }
  assert (Hl2 : Forall (fun v => v = 0)
                  (map f (map Z.of_nat (seq (S (Z.to_nat c)) (Z.to_nat (bins - c - 1)))))).
  { apply Forall_map, Forall_map, Forall_forall. intros j Hj. apply in_seq in Hj.
    unfold f. replace (c =? Z.of_nat j) with false; [reflexivity|].
    symmetry. apply Z.eqb_neq. lia. }
  set (l1 := map f (map Z.of_nat (seq 0 (Z.to_nat c)))) in *.
  set (l2 := map f (map Z.of_nat (seq (S (Z.to_nat c)) (Z.to_nat (bins - c - 1))))) in *.
  assert (Hlen : List.length l1 = Z.to_nat c)
    by (unfold l1; now rewrite !length_map, length_seq).
  destruct l1 as [|v l1'] eqn:El1.
  - cbn [app argmax_Z]. simpl in Hlen.
    rewrite argmax_from_keeps; [lia|].
    eapply Forall_impl; [|exact Hl2]. intros a ->. lia.
  - cbn [app argmax_Z]. inversion Hl1 as [|? ? Hv Hl1']; subst.
    rewrite argmax_from_spike.
    + cbn [List.length] in Hlen. lia.
    + eapply Forall_impl; [|exact Hl1']. intros a ->. lia.
    + lia.
    + eapply Forall_impl; [|exact Hl2]. intros a ->. lia.
Qed.

(** X10: the dominant timestep is read off a histogram whose bins span the
    peaks that were observed, not the window. When every voxel kept for the
    histogram peaks at one and the same index, whatever that index, the
    aligner reports the middle of the window, [timesteps // 2]. *)
Theorem shared_peak_reports_middle_of_window {A} `{Number A}
    (dce : series A) (mask : vol bool) (timesteps p : Z) :
  List.length (vdata mask) = nvoxels (spatial dce) ->
  well_shaped dce ->
  frames dce <> [] ->
  3 <= timesteps ->
  (exists j, nth j (first_part_mask dce mask timesteps) false = true) ->
  (forall j, nth j (first_part_mask dce mask timesteps) false = true ->
             voxel_peak dce timesteps j = p) ->
  find_most_peak_values dce mask timesteps =
  match nth_error (frames dce) (Z.to_nat (timesteps / 2)) with
  | Some fr =>
      Ok (Some (timesteps / 2,
                Vol (spatial dce)
                    (put_mask (vdata mask) (select (vdata mask) fr)
                              (repeat nzero (nvoxels (spatial dce))))))
  | None => Raise IndexError
  end.
Proof.
  intros Hmask Hws Hfr Ht [j0 Hj0] Hpeak. unfold find_most_peak_values.
  destruct (slice_to timesteps (frames dce)) as [|fr0 w] eqn:W.
  - exfalso. unfold slice_to in W.
    destruct (frames dce) as [|f fs]; [congruence|].
    replace (timesteps <? 0) with false in W by (symmetry; apply Z.ltb_ge; lia).
    destruct (Z.to_nat (Z.min timesteps (Z.of_nat (List.length (f :: fs))))) eqn:E;
      [cbn [List.length] in E; lia | discriminate W].
  - replace (timesteps <=? 0) with false by (symmetry; apply Z.leb_gt; lia).
    set (first_part := first_part_mask dce mask timesteps) in *.
    assert (Hlen : List.length first_part = nvoxels (spatial dce)).
    { unfold first_part, first_part_mask. now rewrite put_mask_length, repeat_length. }
    assert (Hpv : peak_indices (fr0 :: w) first_part =
                  repeat p (List.length (filter (fun b : bool => b) first_part))).
    { rewrite <- W.
      rewrite (@peak_indices_of_mask _ _ dce (Vol (spatial dce) first_part) timesteps Hws)
        by (rewrite W; discriminate).
      cbn [vdata]. apply (select_constant 0).
      - now rewrite length_map, length_seq.
      - intros j Hj. assert (Hjn : (j < nvoxels (spatial dce))%nat).
        { destruct (Nat.lt_ge_cases j (nvoxels (spatial dce))) as [L | G]; [exact L|].
          rewrite nth_overflow in Hj by lia. discriminate Hj. }
        rewrite nth_map_seq by exact Hjn. now apply Hpeak. }
    rewrite Hpv.
    destruct (List.length (filter (fun b : bool => b) first_part)) as [|k] eqn:Ek.
    + exfalso. assert (Hin : In true (filter (fun b : bool => b) first_part)).
      { apply filter_In. split; [|reflexivity]. rewrite <- Hj0. apply nth_In.
        destruct (Nat.lt_ge_cases j0 (List.length first_part)) as [L | G]; [exact L|].
        rewrite nth_overflow in Hj0 by lia. discriminate Hj0. }
      destruct (filter (fun b : bool => b) first_part); [contradiction | discriminate Ek].
    + rewrite np_histogram_of_one_value.
      rewrite argmax_Z_spike;
        [| split; [apply Z.div_pos | apply Z.div_lt_upper_bound]; lia | lia].
      replace ((timesteps / 2 =? 0) || (timesteps - 1 <=? timesteps / 2)) with false.
      * reflexivity.
      * symmetry. apply orb_false_iff. split; [apply Z.eqb_neq | apply Z.leb_gt].
        -- assert (1 <= timesteps / 2) by (apply Z.div_le_lower_bound; lia). lia.
        -- assert (timesteps / 2 < timesteps - 1)
             by (apply Z.div_lt_upper_bound; lia). lia.
Qed.


Lemma shared_peak_reports_middle_of_window_witness :
  voxel_peak early_bolus 4 0 = 1 /\ voxel_peak early_bolus 4 1 = 1 /\
  find_most_peak_values early_bolus both_selected 4 =
  Ok (Some (2, Vol (1, 1, 2) [f64 2; f64 2])).
Proof.
  split; [vm_compute; reflexivity|]. split; [vm_compute; reflexivity|].
  assert (Efp : first_part_mask early_bolus both_selected 4 = [true; true])
    by (vm_compute; reflexivity).
  rewrite (@shared_peak_reports_middle_of_window _ _ early_bolus both_selected 4 1).
  - vm_compute; reflexivity.
  - reflexivity.
  - repeat constructor.
  - discriminate.
  - lia.
  - exists 0%nat. now rewrite Efp.
  - rewrite Efp. intros [|[|j]] Hj; [vm_compute; reflexivity | vm_compute; reflexivity |].
    destruct j; discriminate Hj.
Defined.

(** ** Region extraction: order, alignment and the threshold *)

Lemma In_list_of_index (regions : list region) (area_threshold num : Z) :
  In num (list_of_index_of regions area_threshold) <->
  exists x, 0 <= num /\ nth_error regions (Z.to_nat num) = Some x /\
            num <> 0 /\ area_threshold < area x.
Proof.
  unfold list_of_index_of, find_promising_objects; cbn [snd].
  rewrite in_map_iff. split.
  - intros ([n y] & <- & Hin). cbn [fst].
    apply filter_In in Hin. destruct Hin as (Hin & Hkeep).
    apply In_enumerate in Hin. destruct Hin as (Hn & Hy).
    apply andb_true_iff in Hkeep. destruct Hkeep as (H0 & Ha).
    apply negb_true_iff, Z.eqb_neq in H0. apply Z.ltb_lt in Ha.
    exists y. auto.
  - intros (x & Hn & Hx & H0 & Ha). exists (num, x). split; [reflexivity|].
    apply filter_In. split; [apply In_enumerate; now split|].
    apply andb_true_iff. split; [apply negb_true_iff, Z.eqb_neq; exact H0 | now apply Z.ltb_lt].
Qed.

Lemma sorted_filter_fst {B : Type} (f : Z * B -> bool) (l : list (Z * B)) :
  StronglySorted Z.lt (map fst l) -> StronglySorted Z.lt (map fst (filter f l)).
Proof.
  induction l as [|[n y] l IH]; simpl; intros Hs; [constructor|].
  inversion Hs as [|? ? Hl Hn]; subst.
  destruct (f (n, y)); simpl; [|now apply IH].
  constructor; [now apply IH|].
  rewrite Forall_forall in *. intros m Hm. apply Hn.
  apply in_map_iff in Hm. destruct Hm as (q & <- & Hq).
  apply filter_In in Hq. apply in_map. tauto.
Qed.

Lemma sorted_range (s n : nat) : StronglySorted Z.lt (map Z.of_nat (seq s n)).
Proof.
  revert s; induction n as [|n IH]; intros s; simpl; constructor; [apply IH|].
  apply Forall_map, Forall_forall. intros j Hj. apply in_seq in Hj. lia.
Qed.

Lemma map_fst_combine {A B : Type} (a : list A) (b : list B) :
  List.length a = List.length b -> map fst (combine a b) = a.
Proof.
  revert b; induction a as [|x a IH]; intros [|y b] E; simpl in *; try congruence.
  f_equal. apply IH. congruence.
Qed.

(** X11: the three lists of the region extractor go together. The masks and
    the boxes are those of the regions at the listed indices, in the same
    order, and the indices are strictly increasing: the order of the
    labels is kept. *)
Theorem promising_objects_keep_region_order (regions : list region) (area_threshold : Z) :
  let '(masks, boxes, list_of_index) := find_promising_objects regions area_threshold in
  map Some masks =
    map (fun i => option_map convex_image (nth_error regions (Z.to_nat i))) list_of_index /\
  map Some boxes =
    map (fun i => option_map bbox (nth_error regions (Z.to_nat i))) list_of_index /\
  StronglySorted Z.lt list_of_index.
Proof.
  unfold find_promising_objects.
  set (kept := filter _ (enumerate regions)).
  assert (Hkept : forall n x, In (n, x) kept -> nth_error regions (Z.to_nat n) = Some x).
  { intros n x Hin. apply filter_In in Hin. destruct Hin as [Hin _].
    now apply In_enumerate in Hin. }
  split; [|split].
  - rewrite !map_map. apply map_ext_in. intros [n x] Hin. cbn [fst].
    now rewrite (Hkept n x Hin).
  - rewrite !map_map. apply map_ext_in. intros [n x] Hin. cbn [fst].
    now rewrite (Hkept n x Hin).
  - apply sorted_filter_fst. unfold enumerate, zrange.
    rewrite map_fst_combine by now rewrite length_map, length_seq, Nat2Z.id.
    apply sorted_range.
Qed.

(** X12: raising the area threshold never adds a candidate. *)
Theorem promising_objects_shrink_with_threshold
    (regions : list region) (low high num : Z) :
  low <= high ->
  In num (list_of_index_of regions high) ->
  In num (list_of_index_of regions low).
Proof.
  intros Hle Hin. apply In_list_of_index in Hin.
  destruct Hin as (x & Hn & Hx & H0 & Ha).
  apply In_list_of_index. exists x. repeat split; try assumption. lia.
Qed.

Lemma promising_objects_shrink_with_threshold_witness :
  In 1 (list_of_index_of three_regions 1000).
Proof.
  apply (@promising_objects_shrink_with_threshold three_regions 1000 2500 1);
    [lia | vm_compute; auto].
Defined.


Lemma f64_isnan_true (a : float64) : nisnan a = true -> a = S754_nan.
Proof.
  intros E. destruct a as [s|s| |s m e]; try reflexivity.
  - assert (F : nisnan (S754_zero s : float64) = false)
      by (apply f64_isnan_false; discriminate). congruence.
  - assert (F : nisnan (S754_infinity s : float64) = false)
      by (apply f64_isnan_false; discriminate). congruence.
  - assert (F : nisnan (S754_finite s m e : float64) = false)
      by (apply f64_isnan_false; discriminate). congruence.
Qed.


(** ** Repeated morphology *)




(** ** The seed of region growing *)

Lemma np_max_nan (l : list float64) :
  forall x, In S754_nan (x :: l) -> np_max x l = S754_nan.
Proof.
  unfold np_max.
  induction l as [|v l IH]; intros x Hin.
  - destruct Hin as [->|[]]. reflexivity.
  - cbn [fold_left]. apply IH.
    destruct Hin as [->|[->|Hin]].
    + left; reflexivity.
    + left. now destruct (nisnan x) eqn:Ex; [apply f64_isnan_true in Ex|].
    + right; exact Hin.
Qed.

Lemma index_of_none {A : Type} (p : A -> bool) (l : list A) :
  forall i, (forall x, In x l -> p x = false) -> index_of p i l = None.
Proof.
  induction l as [|x l IH]; intros i Hp; simpl; [reflexivity|].
  rewrite (Hp x) by now left. apply IH. intros y Hy. apply Hp. now right.
Qed.

Lemma find_brightest_voxel_nan (dce : vol float64) :
  In S754_nan (vdata dce) -> find_brightest_voxel dce = Raise IndexError.
Proof.
  unfold find_brightest_voxel.
  intros Hin. destruct (vdata dce) as [|x l] eqn:E; [destruct Hin|].
  rewrite (@np_max_nan l x Hin).
  rewrite index_of_none; [reflexivity|].
  intros y _. cbn. unfold SFeqb. now destruct y.
Qed.

(** X14: a volume that holds a NaN has no brightest voxel. [np.max] returns
    NaN, no value compares equal to it, [np.where] finds nothing and the
    indexing of its empty result raises IndexError; an empty volume raises
    ValueError in [np.max]. *)
Theorem brightest_voxel_of_nan_volume (dce : vol float64) :
  (vdata dce = [] -> find_brightest_voxel dce = Raise ValueError) /\
  (In S754_nan (vdata dce) -> find_brightest_voxel dce = Raise IndexError).
Proof.
  split; [|apply find_brightest_voxel_nan].
  unfold find_brightest_voxel. intros ->. reflexivity.
Qed.

Lemma brightest_voxel_of_nan_volume_witness :
  find_brightest_voxel (Vol (1, 1, 3) [f64 1; S754_nan; f64 2]) = Raise IndexError.
Proof.
  apply (proj2 (brightest_voxel_of_nan_volume (Vol (1, 1, 3) [f64 1; S754_nan; f64 2]))).
  cbn. auto.
Defined.


Lemma f64_eqb_leb (a b : float64) : neqb a b = true -> nleb b a = true.
Proof.
  cbn. unfold SFeqb, SFleb.
  destruct a as [sa|sa| |sa ma ea], b as [sb|sb| |sb mb eb];
    simpl; try destruct sa; try destruct sb; simpl;
    try (intros; reflexivity); try (intros; discriminate);
    change (Pos.compare_cont Eq) with Pos.compare;
    destruct (Z.compare_spec ea eb), (Z.compare_spec eb ea);
    subst; try lia; simpl; try (intros; reflexivity); try (intros; discriminate);
    destruct (Pos.compare_spec ma mb), (Pos.compare_spec mb ma);
    subst; try lia; simpl; intros; reflexivity || discriminate.
Qed.

Lemma f64_leb_not_eqb (a b : float64) :
  nleb a b = true -> neqb a b = false -> nltb a b = true.
Proof. cbn. unfold SFleb, SFeqb, SFltb. now destruct (SFcompare a b) as [[]|]. Qed.

Lemma f64_ltb_leb_trans (a b c : float64) :
  nltb a b = true -> nleb b c = true -> nltb a c = true.
Proof.
  cbn. unfold SFleb, SFltb.
  destruct a as [sa|sa| |sa ma ea], b as [sb|sb| |sb mb eb], c as [sc|sc| |sc mc ec];
    simpl; try destruct sa; try destruct sb; try destruct sc; simpl;
    try (intros; reflexivity); try (intros; discriminate);
    change (Pos.compare_cont Eq) with Pos.compare;
    destruct (Z.compare_spec ea eb), (Z.compare_spec eb ec), (Z.compare_spec ea ec);
    subst; try lia; simpl; try (intros; reflexivity); try (intros; discriminate);
    destruct (Pos.compare_spec ma mb), (Pos.compare_spec mb mc), (Pos.compare_spec ma mc);
    subst; try lia; simpl; intros; reflexivity || discriminate.
Qed.

(** [np.max] of NaN-free data is one of the values and bounds them all. *)
Lemma np_max_greatest (l : list float64) :
  forall x, (forall y, In y (x :: l) -> nisnan y = false) ->
    In (np_max x l) (x :: l) /\ forall y, In y (x :: l) -> nleb y (np_max x l) = true.
Proof.
  unfold np_max.
  induction l as [|v l IH]; intros x Hn.
  - cbn [fold_left]. split; [now left|]. intros y [<-|[]].
    apply f64_leb_refl, Hn. now left.
  - cbn [fold_left].
    assert (Nx : nisnan x = false) by (apply Hn; now left).
    assert (Nv : nisnan v = false) by (apply Hn; right; now left).
    rewrite Nx, Nv.
    set (m := if nltb x v then v else x).
    assert (Hm : (m = x \/ m = v) /\ nleb x m = true /\ nleb v m = true).
    { unfold m. destruct (nltb x v) eqn:E.
      - split; [now right|]. split; [now apply f64_ltb_leb | now apply f64_leb_refl].
      - split; [now left|]. split; [now apply f64_leb_refl | now apply f64_leb_total]. }
    destruct Hm as (Hm & Hxm & Hvm).
    destruct (IH m) as (Hin & Hle).
    { intros y [<-|Hy]; [destruct Hm as [->| ->]; assumption|]. apply Hn. right; now right. }
    split.
    + destruct Hin as [Hin|Hin]; [|right; now right].
      rewrite <- Hin. destruct Hm as [->| ->]; [now left | right; now left].
    + intros y [<-|[<-|Hy]].
      * apply f64_leb_trans with m; [exact Hxm | apply Hle; now left].
      * apply f64_leb_trans with m; [exact Hvm | apply Hle; now left].
      * apply Hle. now right.
Qed.

(** [np.where(...)[0]]: the first position that passes the test. *)
Lemma index_of_first {A : Type} (p : A -> bool) (d : A) (l : list A) :
  forall i, (exists x, In x l /\ p x = true) ->
    exists n, index_of p i l = Some (i + Z.of_nat n) /\ (n < List.length l)%nat /\
              p (nth n l d) = true /\
              forall j, (j < n)%nat -> p (nth j l d) = false.
Proof.
  induction l as [|x l IH]; intros i (y & Hy & Py); [destruct Hy|].
  cbn [index_of]. destruct (p x) eqn:Px.
  - exists 0%nat. rewrite Z.add_0_r. cbn [nth List.length].
    repeat split; [lia | exact Px | intros j Hj; lia].
  - destruct Hy as [->|Hy]; [congruence|].
    destruct (IH (i + 1) (ex_intro _ y (conj Hy Py))) as (n & E & Hn & Pn & Hfirst).
    exists (S n). rewrite E. cbn [nth List.length].
    repeat split; [f_equal; lia | lia | exact Pn |].
    intros [|j] Hj; [exact Px | apply Hfirst; lia].
Qed.

Lemma ravel_unravel (nz ny nx i : Z) :
  0 < ny -> 0 < nx -> ravel (nz, ny, nx) (unravel (nz, ny, nx) i) = i.
Proof.
  intros Hy Hx. unfold ravel, unravel.
  rewrite (Z.mul_comm (i / nx / ny) ny), <- Z.div_mod by lia.
  rewrite (Z.mul_comm (i / nx) nx), <- Z.div_mod by lia. reflexivity.
Qed.

Lemma unravel_in_bounds (nz ny nx i : Z) :
  0 < ny -> 0 < nx -> 0 <= i < nz * ny * nx ->
  in_bounds (nz, ny, nx) (unravel (nz, ny, nx) i) = true.
Proof.
  intros Hy Hx [H0 H1]. unfold in_bounds, unravel.
  assert (0 <= i / nx) by (apply Z.div_pos; lia).
  assert (0 <= i / nx / ny) by (apply Z.div_pos; lia).
  assert (i / nx < nz * ny) by (apply Z.div_lt_upper_bound; lia).
  assert (i / nx / ny < nz) by (apply Z.div_lt_upper_bound; lia).
  pose proof (Z.mod_pos_bound (i / nx) ny Hy). pose proof (Z.mod_pos_bound i nx Hx).
  rewrite !andb_true_iff, !Z.leb_le, !Z.ltb_lt. lia.
Qed.

(** X15: on a NaN-free volume the seed finder returns the first voxel, in C
    order, that holds the greatest value: the voxel lies in the volume, no
    voxel is brighter, and every voxel before it is strictly darker. *)
Theorem brightest_voxel_is_first_maximum (dce : vol float64) (nz ny nx : Z) :
  vshape dce = (nz, ny, nx) -> 0 < nz -> 0 < ny -> 0 < nx ->
  List.length (vdata dce) = nvoxels (vshape dce) ->
  Forall (fun y => nisnan y = false) (vdata dce) ->
  exists p,
    find_brightest_voxel dce = Ok p /\
    in_bounds (vshape dce) p = true /\
    (forall q, in_bounds (vshape dce) q = true ->
       nleb (get3 nzero dce q) (get3 nzero dce p) = true) /\
    (forall q, in_bounds (vshape dce) q = true ->
       ravel (vshape dce) q < ravel (vshape dce) p ->
       nltb (get3 nzero dce q) (get3 nzero dce p) = true).
Proof.
  intros Hsh Hz Hy Hx Hlen Hnan.
  assert (Hpos : 0 < nz * ny * nx) by nia.
  rewrite Hsh in Hlen. cbn [nvoxels] in Hlen.
  rewrite Forall_forall in Hnan.
  unfold find_brightest_voxel.
  destruct (vdata dce) as [|x l] eqn:Ed; [cbn in Hlen; lia|].
  destruct (@np_max_greatest l x Hnan) as (Hin & Hle).
  set (m := np_max x l) in *.
  assert (Nm : nisnan m = false) by now apply Hnan.
  destruct (@index_of_first _ (fun v => neqb v m) nzero (x :: l) 0) as (n & E & Hn & Pn & Hfirst).
  { exists m. split; [exact Hin|]. unfold nisnan in Nm. now apply negb_false_iff in Nm. }
  rewrite E, Z.add_0_l.
  set (top := nth n (x :: l) nzero) in *.
  assert (Hi : 0 <= Z.of_nat n < nz * ny * nx) by lia.
  assert (Hget : forall q, in_bounds (nz, ny, nx) q = true ->
            get3 nzero dce q = nth (Z.to_nat (ravel (nz, ny, nx) q)) (x :: l) nzero /\
            (Z.to_nat (ravel (nz, ny, nx) q) < List.length (x :: l))%nat).
  { intros [[z y] c] Hq. unfold get3. rewrite Hsh, Hq, Ed. split; [reflexivity|].
    pose proof (ravel_in_range _ _ _ _ _ _ Hq). lia. }
  assert (Hp : in_bounds (nz, ny, nx) (unravel (nz, ny, nx) (Z.of_nat n)) = true)
    by now apply unravel_in_bounds.
  assert (Etop : get3 nzero dce (unravel (nz, ny, nx) (Z.of_nat n)) = top).
  { rewrite (proj1 (Hget _ Hp)), ravel_unravel, Nat2Z.id by assumption. reflexivity. }
  exists (unravel (nz, ny, nx) (Z.of_nat n)). rewrite Hsh.
  split; [reflexivity|]. split; [exact Hp|]. rewrite Etop. split.
  - intros q Hq. destruct (Hget q Hq) as [-> Hq'].
    apply f64_leb_trans with m; [apply Hle, nth_In, Hq' | now apply f64_eqb_leb].
  - intros q Hq Hlt. destruct (Hget q Hq) as [-> Hq'].
    rewrite ravel_unravel in Hlt by assumption.
    destruct q as [[qz qy] qx]; pose proof (ravel_in_range _ _ _ _ _ _ Hq) as Hr.
    apply f64_ltb_leb_trans with m; [|now apply f64_eqb_leb].
    apply f64_leb_not_eqb; [apply Hle, nth_In, Hq'|].
    apply Hfirst. lia.
Qed.

Lemma brightest_voxel_is_first_maximum_witness :
  exists p,
    find_brightest_voxel (Vol (1, 2, 2) [f64 1; f64 7; f64 3; f64 7]) = Ok p /\
    in_bounds (1, 2, 2) p = true.
Proof.
  destruct (@brightest_voxel_is_first_maximum
              (Vol (1, 2, 2) [f64 1; f64 7; f64 3; f64 7]) 1 2 2)
    as (p & E & Hp & _); try reflexivity; try lia.
  - repeat constructor.
  - exists p. split; [exact E | exact Hp].
Defined.


(** ** The fit of a curve *)

Lemma py_max_of_zeros (x : float64) (l : list float64) :
  is_zero x = true -> Forall (fun v => is_zero v = true) l ->
  fold_left (fun m v => if nltb m v then v else m) l x = x.
Proof.
  intros Hx Hl. induction Hl as [|v l Hv _ IH]; [reflexivity|].
  cbn [fold_left].
  replace (nltb x v) with false; [exact IH|].
  destruct x, v; try discriminate. reflexivity.
Qed.

(** X16: a curve that is zero throughout cannot be fitted on its own terms:
    the normalisation divides by its maximum, zero, and the optimiser is
    handed a curve of NaN of the same length. An empty curve raises
    ValueError in [max] before the optimiser is called. *)
Theorem flat_curve_is_normalised_to_nan (lib : externals float64)
    (measured timeline : list float64) :
  (measured = [] -> estimate_parkers_model lib measured timeline = Raise ValueError) /\
  (measured <> [] -> Forall (fun v => is_zero v = true) measured ->
   estimate_parkers_model lib measured timeline =
   least_squares lib timeline (repeat S754_nan (List.length measured))).
Proof.
  unfold estimate_parkers_model. split.
  - intros ->. reflexivity.
  - intros Hne Hz. destruct measured as [|x l]; [congruence|].
    inversion Hz as [|? ? Hx Hl]; subst.
    cbn [py_max bind]. rewrite (@py_max_of_zeros x l Hx Hl).
    f_equal. clear Hne Hl. revert Hz. generalize (x :: l) as c.
    induction 1 as [|v l' Hv _ IH]; [reflexivity|].
    cbn [map List.length repeat]. f_equal; [|exact IH].
    destruct x, v; try discriminate. reflexivity.
Qed.

Lemma flat_curve_is_normalised_to_nan_witness :
  estimate_parkers_model toy_externals [f64 0; f64 0] [f64 0; f64 1] = Raise ValueError.
Proof.
  rewrite (proj2 (flat_curve_is_normalised_to_nan toy_externals [f64 0; f64 0] [f64 0; f64 1])).
  - reflexivity.
  - discriminate.
  - repeat constructor.
Defined.


(** ** The fitting loop and the choice of the region *)

Lemma fit_candidates_step {A} `{Number A} (lib : externals A)
    (dce_rel : series A) (label_im : vol Z) (half x : Z) (rest : list Z)
    (df_cost : list (option A)) :
  fit_candidates lib dce_rel label_im half (x :: rest) df_cost =
  (solution <- candidate_fit lib dce_rel label_im half x ;;
   fit_candidates lib dce_rel label_im half rest
     (set_nth (Z.to_nat x) (Some (cost solution)) df_cost))%py.
Proof. reflexivity. Qed.

(** X17: the fitting loop of step 4 has no guard: the first candidate whose
    fit raises ends the loop with that exception, and the candidates after
    it are never fitted. *)
Theorem candidate_fit_failure_ends_the_search {A} `{Number A} (lib : externals A)
    (dce_rel : series A) (label_im : vol Z) (half x : Z) (before after : list Z)
    (df_cost : list (option A)) (e : exn) :
  Forall (fun y => exists s, candidate_fit lib dce_rel label_im half y = Ok s) before ->
  candidate_fit lib dce_rel label_im half x = Raise e ->
  fit_candidates lib dce_rel label_im half (before ++ x :: after) df_cost = Raise e.
Proof.
  intros Hb Hx. revert df_cost.
  induction Hb as [|y before (s & Es) _ IH]; intros df_cost.
  - cbn [app]. rewrite fit_candidates_step, Hx. reflexivity.
  - cbn [app]. rewrite fit_candidates_step, Es. cbn [bind]. apply IH.
Qed.

Lemma candidate_fit_failure_ends_the_search_witness :
  fit_candidates toy_externals late_enhancement two_labels 2 [0; 1] [None; None] =
  Raise ValueError.
Proof.
  apply (@candidate_fit_failure_ends_the_search _ _ toy_externals late_enhancement
           two_labels 2 0 [] [1] [None; None] ValueError).
  - constructor.
  - vm_compute; reflexivity.
Defined.

Lemma set_nth_nth_error {A : Type} (n j : nat) (x c : A) (l : list A) :
  nth_error (set_nth n x l) j = Some c -> j = n \/ nth_error l j = Some c.
Proof.
  revert n j; induction l as [|y l IH]; intros n j; [destruct n; simpl; auto|].
  destruct n as [|n], j as [|j]; simpl; auto.
  intros E. destruct (IH n j E); auto.
Qed.

(** A row of the column that holds a cost was written by a candidate. *)
Lemma fit_candidates_rows {A} `{Number A} (lib : externals A)
    (dce_rel : series A) (label_im : vol Z) (half : Z) (list_of_index : list Z) :
  forall init df_cost,
    fit_candidates lib dce_rel label_im half list_of_index init = Ok df_cost ->
    forall j c, nth_error df_cost j = Some (Some c) ->
      nth_error init j = Some (Some c) \/ exists x, In x list_of_index /\ Z.to_nat x = j.
Proof.
  induction list_of_index as [|x rest IH]; intros init df_cost E j c Hj.
  - cbn in E. injection E as <-. now left.
  - rewrite fit_candidates_step in E.
    destruct (candidate_fit lib dce_rel label_im half x) as [s|e]; [|discriminate E].
    cbn [bind] in E.
    destruct (IH _ _ E j c Hj) as [Hinit | (y & Hy & Ey)].
    + apply set_nth_nth_error in Hinit. destruct Hinit as [-> | Hinit]; [|now left].
      right. exists x. split; [now left | reflexivity].
    + right. exists y. split; [now right | exact Ey].
Qed.

Lemma nanargmin_from_index {A} `{Number A} (l : list (option A)) :
  forall best besti i k c,
    nanargmin_from best besti i l = (k, c) ->
    (k = besti /\ c = best) \/
    (i <= k /\ nth_error l (Z.to_nat (k - i)) = Some (Some c)).
Proof.
  induction l as [|o l IH]; intros best besti i k c E.
  - cbn in E. injection E as <- <-. now left.
  - cbn [nanargmin_from] in E.
    assert (Hshift : forall k', i + 1 <= k' ->
              nth_error l (Z.to_nat (k' - (i + 1))) = Some (Some c) ->
              i <= k' /\ nth_error (o :: l) (Z.to_nat (k' - i)) = Some (Some c)).
    { intros k' Hk Hn. split; [lia|].
      replace (Z.to_nat (k' - i)) with (S (Z.to_nat (k' - (i + 1)))) by lia. exact Hn. }
    destruct o as [v|]; cbn [skipna] in E.
    + destruct (nisnan v); [|destruct (nltb v best)].
      * destruct (IH _ _ _ _ _ E) as [?|[? ?]]; [now left | right; now apply Hshift].
      * destruct (IH _ _ _ _ _ E) as [[-> ->]|[? ?]]; [|right; now apply Hshift].
        right. split; [lia|]. now rewrite Z.sub_diag.
      * destruct (IH _ _ _ _ _ E) as [?|[? ?]]; [now left | right; now apply Hshift].
    + destruct (IH _ _ _ _ _ E) as [?|[? ?]]; [now left | right; now apply Hshift].
Qed.

Lemma nanargmin_index {A} `{Number A} (l : list (option A)) :
  forall i k c,
    nanargmin i l = Some (k, c) ->
    i <= k /\ nth_error l (Z.to_nat (k - i)) = Some (Some c).
Proof.
  induction l as [|o l IH]; intros i k c E; [discriminate E|].
  cbn [nanargmin] in E.
  assert (Hshift : forall k', i + 1 <= k' ->
            nth_error l (Z.to_nat (k' - (i + 1))) = Some (Some c) ->
            i <= k' /\ nth_error (o :: l) (Z.to_nat (k' - i)) = Some (Some c)).
  { intros k' Hk Hn. split; [lia|].
    replace (Z.to_nat (k' - i)) with (S (Z.to_nat (k' - (i + 1)))) by lia. exact Hn. }
  destruct o as [v|]; cbn [skipna] in E.
  - destruct (nisnan v).
    + destruct (IH _ _ _ E). now apply Hshift.
    + injection E as E. apply nanargmin_from_index in E.
      destruct E as [[-> ->]|[? ?]]; [|now apply Hshift].
      split; [lia|]. now rewrite Z.sub_diag.
  - destruct (IH _ _ _ E). now apply Hshift.
Qed.

Lemma nth_error_repeat_None {A : Type} (n j : nat) (c : A) :
  nth_error (repeat (@None A) n) j <> Some (Some c).
Proof.
  revert j; induction n as [|n IH]; intros [|j]; simpl; try discriminate. apply IH.
Qed.

(** X18: the region that step 4 hands to the refinement is one of the
    candidates: whenever the fitting loop returns and the cost column has a
    least entry, its index is in the candidate list, so the region is not
    the first of the region list and its area exceeds the threshold. *)
Theorem refined_region_is_a_candidate {A} `{Number A} (lib : externals A)
    (dce_rel : series A) (label_im : vol Z) (half : Z)
    (regions : list region) (area_threshold : Z)
    (df_cost : list (option A)) (best_fit : Z) (df_cost_min : A) :
  fit_candidates lib dce_rel label_im half (list_of_index_of regions area_threshold)
                 (repeat None (List.length regions)) = Ok df_cost ->
  nanargmin 0 df_cost = Some (best_fit, df_cost_min) ->
  In best_fit (list_of_index_of regions area_threshold) /\
  best_fit <> 0 /\
  exists x, nth_error regions (Z.to_nat best_fit) = Some x /\ area_threshold < area x.
Proof.
  intros Efit Emin.
  apply nanargmin_index in Emin. destruct Emin as [H0 Hrow].
  rewrite Z.sub_0_r in Hrow.
  destruct (fit_candidates_rows _ _ _ _ _ _ Efit _ Hrow) as [Hinit | (y & Hy & Ey)].
  { now apply nth_error_repeat_None in Hinit. }
  assert (Hy' := Hy). apply In_list_of_index in Hy'.
  destruct Hy' as (x & Hy0 & Hx & Hne & Ha).
  assert (y = best_fit) by lia. subst y.
  split; [exact Hy|]. split; [exact Hne|]. exists x. now split.
Qed.

Lemma refined_region_is_a_candidate_witness :
  In 1 (list_of_index_of three_regions 1000) /\ 1 <> 0 /\
  exists x, nth_error three_regions (Z.to_nat 1) = Some x /\ 1000 < area x.
Proof.
  eapply (@refined_region_is_a_candidate _ _ toy_externals early_bolus two_labels 2
            three_regions 1000).
  - vm_compute; reflexivity.
  - vm_compute; reflexivity.
Defined.


(** ** Clustering of the time courses *)

Lemma select_length {A : Type} (mask : list bool) (a : list A) :
  List.length a = List.length mask ->
  List.length (select mask a) = List.length (filter (fun b : bool => b) mask).
Proof.
  revert a; induction mask as [|m mask IH]; intros [|x a] E; simpl in *;
    try congruence; try reflexivity.
  injection E as E. destruct m; simpl; now rewrite IH.
Qed.

Lemma select_all {A : Type} (a : list A) : select (repeat true (List.length a)) a = a.
Proof. induction a as [|x a IH]; simpl; congruence. Qed.

Lemma zip_with_fst_id {A B : Type} (acc : list A) (rows : list B) :
  List.length acc = List.length rows -> zip_with (fun a _ => a) acc rows = acc.
Proof.
  revert rows; induction acc as [|a acc IH]; intros [|r rows] E; simpl in *;
    try congruence. f_equal. apply IH. congruence.
Qed.

Lemma zip_with_zip_with_map {A B C : Type} (F : A -> B -> C) (add : A -> A -> A)
    (g : B -> A) (acc : list A) (rows : list B) :
  zip_with F (zip_with add acc (map g rows)) rows =
  zip_with (fun a r => F (add a (g r)) r) acc rows.
Proof.
  revert rows; induction acc as [|a acc IH]; intros [|r rows]; simpl; try reflexivity.
  f_equal. apply IH.
Qed.

(** Adding up the columns of a table, one column after the other, adds up
    every row. *)
Lemma fold_columns {A B : Type} (add : A -> A -> A) (g : B -> nat -> A)
    (rows : list B) (js : list nat) :
  forall acc, List.length acc = List.length rows ->
    fold_left (zip_with add) (map (fun j => map (fun r => g r j) rows) js) acc =
    zip_with (fun a r => fold_left add (map (g r) js) a) acc rows.
Proof.
  induction js as [|j js IH]; intros acc E.
  - cbn. symmetry. now apply zip_with_fst_id.
  - cbn [map fold_left]. rewrite IH.
    + apply zip_with_zip_with_map.
    + rewrite zip_with_length by now rewrite length_map. now rewrite length_map.
Qed.

Lemma sum_axis0_columns {A} `{Number A} (n : nat) (rows : list (list A)) :
  rows <> [] ->
  Forall (fun r => List.length r = n) rows ->
  sum_axis0 (List.length rows) (columns rows) =
  map (fun r => fold_left nadd r nzero) rows.
Proof.
  intros Hne Hall. rewrite (columns_well_shaped nzero Hne Hall).
  unfold sum_axis0.
  rewrite (fold_columns nadd (fun r j => nth j r nzero)) by apply repeat_length.
  clear Hne. induction Hall as [|r rows Hr _ IH]; [reflexivity|].
  cbn [List.length repeat zip_with map]. f_equal; [|exact IH].
  replace (map (fun j => nth j r nzero) (seq 0 n)) with r; [reflexivity|].
  rewrite <- Hr. etransitivity; [apply (list_as_map_nth nzero r 0)|].
  apply map_ext. intros j. now rewrite Nat.sub_0_r.
Qed.

Lemma columns_length {A : Type} (d : A) (n : nat) (rows : list (list A)) :
  rows <> [] -> Forall (fun r => List.length r = n) rows ->
  List.length (columns rows) = n.
Proof.
  intros Hne Hall. rewrite (columns_well_shaped d Hne Hall).
  now rewrite length_map, length_seq.
Qed.

(** X19: step 7 asks k-means for one cluster. When every time course gets
    the label 0, as a single cluster has it, the curve the pipeline returns
    is the mean curve of the voxels of the mask: at every sample, the sum of
    their values divided by their number. *)
Theorem single_cluster_is_the_mask_mean {A} `{Number A} (lib : externals A)
    (dce_rel : series A) (mask : vol Z) :
  well_shaped dce_rel ->
  List.length (vdata mask) = nvoxels (spatial dce_rel) ->
  frames dce_rel <> [] ->
  0 < count_nonzero_Z mask ->
  kmeans_fit_predict lib
    (columns (map (select (inside_mask mask)) (frames dce_rel))) 1 =
    Ok (repeat 0 (Z.to_nat (count_nonzero_Z mask))) ->
  temporal_clustering lib dce_rel mask =
  Ok (masked_mean_curve dce_rel (inside_mask mask) (count_nonzero_Z mask)).
Proof.
  intros Hws Hmask Hne Hpos Hk.
  set (inside := inside_mask mask) in *.
  set (rows := map (select inside) (frames dce_rel)) in *.
  assert (Hcount : count_nonzero_Z mask =
                   Z.of_nat (List.length (filter (fun b : bool => b) inside))).
  { unfold count_nonzero_Z, inside, inside_mask. now rewrite filter_map_length. }
  set (n := List.length (filter (fun b : bool => b) inside)) in *.
  assert (Hn : (0 < n)%nat) by lia.
  assert (Hrows : Forall (fun r => List.length r = n) rows).
  { unfold rows. apply Forall_map. unfold well_shaped in Hws.
    eapply Forall_impl; [|exact Hws]. intros fr Hfr. cbv beta in *.
    apply select_length. unfold inside, inside_mask. rewrite length_map. congruence. }
  assert (Hrne : rows <> []).
  { unfold rows. destruct (frames dce_rel); [congruence | discriminate]. }
  assert (Hlen : List.length (columns rows) = n) by now apply (columns_length nzero).
  unfold temporal_clustering.
  change (map (fun v => negb (v =? 0)) (vdata mask)) with inside.
  change (map (select inside) (frames dce_rel)) with rows.
  rewrite Hk, Hcount, Nat2Z.id. cbn [bind].
  destruct (Nat.lt_exists_pred 0 n Hn) as (n' & En & _).
  assert (Er : repeat 0 n = 0 :: repeat 0 n') by (rewrite En; reflexivity).
  rewrite Er at 1. cbv iota beta. rewrite fold_max_repeat.
  change (0 + 1) with 1. change (1 <=? 0) with false. cbv iota.
  rewrite Hlen, repeat_length, Nat.ltb_irrefl, Nat.eqb_refl.
  replace (existsb (fun l => l <? 0) (firstn n (repeat 0 n))) with false.
  2:{ symmetry. rewrite firstn_all2 by now rewrite repeat_length.
      clear. induction n; simpl; auto. }
  cbn [py_assert bind].
  change (zrange 1) with [0]. cbn [map].
  unfold cluster_mean.
  replace (map (fun c => c =? 0) (repeat 0 n)) with (repeat true (List.length (columns rows))).
  2:{ rewrite Hlen. clear. induction n; simpl; congruence. }
  rewrite select_all, Hlen.
  unfold rows at 1. rewrite <- (length_map (select inside) (frames dce_rel)). fold rows.
  rewrite (sum_axis0_columns Hrne Hrows).
  cbn [argmin argmax_from Z.to_nat nth_error].
  f_equal. unfold masked_mean_curve, rows. rewrite !map_map. reflexivity.
Qed.


Lemma single_cluster_is_the_mask_mean_witness :
  temporal_clustering toy_externals early_bolus both_voxels =
  Ok [f64 1; f64 3; f64 2; f64 1].
Proof.
  rewrite (@single_cluster_is_the_mask_mean _ _ toy_externals early_bolus both_voxels).
  - vm_compute; reflexivity.
  - repeat constructor.
  - reflexivity.
  - discriminate.
  - reflexivity.
  - vm_compute; reflexivity.
Defined.


(** ** Thin volumes *)

Lemma erosion_of_thin_volume (v : vol bool) (nz ny nx : Z) (q : coord) :
  vshape v = (nz, ny, nx) -> nz < 3 \/ ny < 3 \/ nx < 3 ->
  get3 false (binary_erosion (generate_binary_structure 1) v) q = false.
Proof.
  intros Hsh Hthin. rewrite get3_binary_erosion, Hsh.
  destruct (in_bounds (nz, ny, nx) q) eqn:Hb; [|reflexivity]. cbn [andb].
  destruct q as [[z y] x].
  assert (Hq := Hb). unfold in_bounds in Hq.
  rewrite !andb_true_iff, !Z.leb_le, !Z.ltb_lt in Hq.
  destruct Hq as (((((Hz0 & Hz1) & Hy0) & Hy1) & Hx0) & Hx1).
  assert (Hout : exists d, In d (generate_binary_structure 1) /\
                           in_bounds (nz, ny, nx) (shift (z, y, x) d) = false).
  { assert (Hs : forall dz dy dx, Z.abs dz + Z.abs dy + Z.abs dx <= 1 ->
                   In (dz, dy, dx) (generate_binary_structure 1))
      by (intros; now apply face_neighbourhood_spec).
    assert (Hcase : z - 1 < 0 \/ nz <= z + 1 \/ y - 1 < 0 \/ ny <= y + 1 \/
                    x - 1 < 0 \/ nx <= x + 1) by lia.
    destruct Hcase as [C|[C|[C|[C|[C|C]]]]];
      [exists (-1, 0, 0) | exists (1, 0, 0) | exists (0, -1, 0) | exists (0, 1, 0)
       | exists (0, 0, -1) | exists (0, 0, 1)];
      (split; [apply Hs; simpl; lia|]);
      unfold shift, in_bounds;
      repeat rewrite andb_false_iff; rewrite ?Z.leb_gt, ?Z.ltb_ge; lia. }
  destruct Hout as (d & Hd & Hdout).
  apply not_true_is_false. intros Hall. rewrite forallb_forall in Hall.
  specialize (Hall d Hd). apply get3_true_in_bounds in Hall. rewrite Hsh in Hall. congruence.
Qed.

Lemma existsb_all_false {A : Type} (f : A -> bool) (l : list A) :
  (forall x, f x = false) -> existsb f l = false.
Proof. intros Hf; induction l as [|x l IH]; simpl; [reflexivity | now rewrite Hf, IH]. Qed.

Lemma map_all_false {A : Type} (f : A -> bool) (l : list A) :
  (forall x, f x = false) -> map f l = repeat false (List.length l).
Proof. intros Hf; induction l as [|x l IH]; simpl; [reflexivity | now rewrite Hf, IH]. Qed.

(** X20: a volume with fewer than three voxels along one of its axes has an
    empty opening. The border counts as background, so the erosion removes
    every voxel that has a face neighbour outside the volume, and in such a
    volume every voxel has one. *)
Theorem opening_of_thin_volume_is_empty (voxels : vol bool) (nz ny nx : Z) :
  vshape voxels = (nz, ny, nx) -> nz < 3 \/ ny < 3 \/ nx < 3 ->
  select_binary_opening voxels = Vol (nz, ny, nx) (repeat false (nvoxels (nz, ny, nx))) /\
  count_nonzero (select_binary_opening voxels) = 0%nat.
Proof.
  intros Hsh Hthin.
  assert (E : select_binary_opening voxels =
              Vol (nz, ny, nx) (repeat false (nvoxels (nz, ny, nx)))).
  { unfold select_binary_opening, binary_opening, binary_dilation at 1, tabulate3.
    change (vshape (binary_erosion (generate_binary_structure 1) voxels)) with (vshape voxels).
    rewrite Hsh. f_equal.
    rewrite map_all_false, length_seq; [reflexivity|].
    intros i. apply existsb_all_false. intros d.
    now apply (erosion_of_thin_volume voxels _ Hsh). }
  split; [exact E|]. rewrite E. unfold count_nonzero. cbn [vdata].
  now rewrite filter_repeat_length.
Qed.

Lemma opening_of_thin_volume_is_empty_witness :
  count_nonzero (select_binary_opening (Vol (2, 3, 3) (repeat true 18))) = 0%nat.
Proof.
  apply (@opening_of_thin_volume_is_empty (Vol (2, 3, 3) (repeat true 18)) 2 3 3);
    [reflexivity | left; lia].
Defined.


(** ** The orchestrator *)

(** X21: the pipeline needs more than twenty time samples. Step 2 averages
    the first twenty and asserts that the series is longer: a shorter series
    ends the run with AssertionError before any voxel is selected. *)
Theorem short_series_is_rejected {A} `{Number A} (lib : externals A) (dce : series A) :
  series_len dce <= 20 ->
  find_deterministic_aif lib dce = Raise AssertionError.
Proof.
  intros Hlen. unfold find_deterministic_aif.
  destruct (@relative_concentration_map_returns _ _ dce 5 (nofZ 1) "abs")
    as (body & Hbody & E); [left; lia|].
  rewrite E. cbn [bind]. unfold select_brightest_voxels, series_len. cbn [frames].
  rewrite length_map, Hbody.
  replace (20 <? Z.of_nat (List.length (frames dce))) with false
    by (symmetry; apply Z.ltb_ge; exact Hlen).
  reflexivity.
Qed.

Lemma short_series_is_rejected_witness :
  find_deterministic_aif toy_externals early_bolus = Raise AssertionError.
Proof.
  apply (@short_series_is_rejected _ _ toy_externals early_bolus).
  vm_compute. discriminate.
Defined.


(** ** A NaN in the data *)

Lemma f64_add_nan (x : float64) : nadd S754_nan x = S754_nan /\ nadd x S754_nan = S754_nan.
Proof. split; now destruct x. Qed.

Lemma fold_nadd_nan (l : list float64) :
  forall a, a = S754_nan \/ In S754_nan l -> fold_left nadd l a = S754_nan.
Proof.
  induction l as [|x l IH]; intros a [Ha|Hin]; cbn [fold_left].
  - exact Ha.
  - destruct Hin.
  - apply IH. left. subst a. apply (proj1 (f64_add_nan x)).
  - apply IH. destruct Hin as [->|Hin]; [left; apply (proj2 (f64_add_nan a)) | now right].
Qed.

(** One voxel of a sum over frames is the sum of that voxel's values. *)
Lemma nth_fold_zip_with {A : Type} (f : A -> A -> A) (d : A) (n j : nat)
    (fs : list (list A)) :
  (j < n)%nat -> Forall (fun fr => List.length fr = n) fs ->
  forall acc, List.length acc = n ->
    nth j (fold_left (zip_with f) fs acc) d =
    fold_left f (map (fun fr => nth j fr d) fs) (nth j acc d).
Proof.
  intros Hj Hfs. induction Hfs as [|fr fs Hfr _ IH]; intros acc Hacc; [reflexivity|].
  cbn [fold_left map]. rewrite IH by (rewrite zip_with_length; congruence).
  f_equal. apply nth_zip_with; lia.
Qed.

Lemma nth_sum_axis0 {A} `{Number A} (n j : nat) (fs : list (list A)) :
  (j < n)%nat -> Forall (fun fr => List.length fr = n) fs ->
  nth j (sum_axis0 n fs) nzero = fold_left nadd (map (fun fr => nth j fr nzero) fs) nzero.
Proof.
  intros Hj Hfs. unfold sum_axis0.
  rewrite (nth_fold_zip_with nadd nzero Hj Hfs) by apply repeat_length.
  f_equal. apply nth_repeat_lt. exact Hj.
Qed.

Lemma Forall_slice_to {A : Type} (P : A -> Prop) (stop : Z) (l : list A) :
  Forall P l -> Forall P (slice_to stop l).
Proof. intros Hl. unfold slice_to. now apply Forall_firstn_keeps. Qed.

(** A NaN in one frame of a window puts a NaN in the sum over the window. *)
Lemma sum_axis0_nan (n : nat) (fs : list (list float64)) (fr : list float64) :
  Forall (fun fr => List.length fr = n) fs ->
  In fr fs -> In S754_nan fr ->
  In S754_nan (sum_axis0 n fs).
Proof.
  intros Hfs Hfr Hnan.
  destruct (In_nth _ _ nzero Hnan) as (j & Hj & Ej).
  assert (Hlen : List.length fr = n) by (rewrite Forall_forall in Hfs; now apply Hfs).
  assert (Hjn : (j < n)%nat) by (rewrite <- Hlen; exact Hj).
  assert (E : nth j (sum_axis0 n fs) nzero = S754_nan).
  { rewrite (nth_sum_axis0 Hjn Hfs). apply fold_nadd_nan. right.
    rewrite <- Ej. apply in_map_iff. exists fr. now split. }
  rewrite <- E. apply nth_In. now rewrite sum_axis0_length.
Qed.

(** X22: one NaN blanks the whole selection. If a frame of the averaging
    window holds a NaN, the percentile of the voxel means is NaN, no mean
    compares above it, and step 2 returns the empty mask. *)
Theorem nan_blanks_the_selection
    (dce : series float64) (timesteps : Z) (percentile : float64) (fr : list float64) :
  well_shaped dce ->
  0 < timesteps < series_len dce ->
  nltb nzero percentile = true -> nltb percentile (nofZ 100) = true ->
  In fr (slice_to timesteps (frames dce)) -> In S754_nan fr ->
  select_brightest_voxels dce timesteps percentile =
  Ok (Vol (spatial dce) (repeat false (nvoxels (spatial dce)))).
Proof.
  intros Hws Hts Hp0 Hp1 Hfr Hnan. unfold select_brightest_voxels.
  replace ((0 <? timesteps) && (timesteps <? series_len dce)) with true
    by (symmetry; apply andb_true_iff; split; apply Z.ltb_lt; lia).
  rewrite Hp0, Hp1. cbn [py_assert andb bind].
  set (n := nvoxels (spatial dce)).
  set (window := slice_to timesteps (frames dce)) in *.
  assert (Hwin : Forall (fun fr => List.length fr = n) window)
    by now apply Forall_slice_to.
  set (dce_sum := map (fun s => ndiv s (nofZ timesteps)) (sum_axis0 n window)).
  assert (Hsum : In S754_nan dce_sum).
  { unfold dce_sum. apply in_map_iff. exists S754_nan.
    split; [reflexivity | exact (@sum_axis0_nan n window fr Hwin Hfr Hnan)]. }
  assert (Hpct : forall q, np_percentile dce_sum q = S754_nan).
  { intros q. unfold np_percentile, np_quantile.
    replace (existsb nisnan (np_sort dce_sum)) with true; [now rewrite orb_true_r|].
    symmetry. apply existsb_exists. exists S754_nan. split; [|reflexivity].
    apply (Permutation_in _ (Permutation_sym (np_sort_permutation dce_sum))), Hsum. }
  rewrite Hpct. do 2 f_equal.
  rewrite map_all_false; [|intros x; now destruct x].
  unfold dce_sum. now rewrite length_map, sum_axis0_length.
Qed.

Lemma nan_blanks_the_selection_witness :
  select_brightest_voxels
    (Series (1, 1, 2) [f64 0; f64 60; f64 120]
            [[f64 1; S754_nan]; [f64 3; f64 2]; [f64 8; f64 1]]) 2 (f64 50) =
  Ok (Vol (1, 1, 2) [false; false]).
Proof.
  apply (@nan_blanks_the_selection
           (Series (1, 1, 2) [f64 0; f64 60; f64 120]
                   [[f64 1; S754_nan]; [f64 3; f64 2]; [f64 8; f64 1]])
           2 (f64 50) [f64 1; S754_nan]).
  - repeat constructor.
  - vm_compute. split; reflexivity.
  - vm_compute; reflexivity.
  - vm_compute; reflexivity.
  - vm_compute. left; reflexivity.
  - right; left; reflexivity.
Defined.




(** ** The baseline window *)

Lemma slice_to_map {A B : Type} (f : A -> B) (stop : Z) (l : list A) :
  slice_to stop (map f l) = map f (slice_to stop l).
Proof. unfold slice_to. now rewrite length_map, firstn_map. Qed.

Lemma nth_map_in_range {A B : Type} (f : A -> B) (l : list A) (j : nat) (d : B) (d' : A) :
  (j < List.length l)%nat -> nth j (map f l) d = f (nth j l d').
Proof.
  intros Hj. rewrite (nth_indep (map f l) d (f d')) by now rewrite length_map.
  apply map_nth.
Qed.

Lemma clamp_negative_zero {A} `{Number A} : clamp_negative (nzero : A) = nzero.
Proof. unfold clamp_negative. now destruct (nltb nzero nzero). Qed.

(** C7, as the code has it: the baseline length is not checked. For every
    length the slice [im[:baseline]] accepts the mapper returns, and the
    value of every voxel is computed against the mean of the samples of that
    slice: all of them when the length is [T] or more. Only a negative
    length that reaches back to the first sample or beyond fails, with the
    IndexError of the slice. *)
Theorem baseline_length_is_not_checked {A} `{Number A}
    (im : series A) (baseline : Z) (k : A) (option : string) :
  well_shaped im ->
  (baseline < 0 /\ baseline <= - series_len im ->
   relative_concentration_map im baseline k option = Raise IndexError) /\
  (0 <= baseline \/ - series_len im < baseline ->
   exists v,
     relative_concentration_map im baseline k option = Ok v /\
     spatial v = spatial im /\
     List.length (frames v) = List.length (frames im) /\
     forall t fr j,
       nth_error (frames im) t = Some fr -> (j < nvoxels (spatial im))%nat ->
       nth j (nth t (frames v) []) nzero =
       concentration option k (nth j fr nzero) (baseline_mean im baseline j)) /\
  (series_len im <= baseline ->
   forall j, baseline_mean im baseline j = baseline_mean im (series_len im) j).
Proof.
  intros Hws. split; [|split].
  - intros [H0 HT]. now apply relative_concentration_map_raises.
  - intros Hb. unfold relative_concentration_map.
    rewrite (series_slice_to_returns _ Hb). cbn [bind].
    eexists. split; [reflexivity|]. cbn [spatial frames].
    split; [reflexivity|].
    split; [rewrite length_map, zip_with_length; [reflexivity | now rewrite length_map]|].
    intros t fr j Ht Hj.
    set (n := nvoxels (spatial im)) in *.
    set (window := slice_to baseline (frames im)).
    assert (Htl : (t < List.length (frames im))%nat)
      by (apply nth_error_Some; congruence).
    assert (Hfr : List.length fr = n).
    { unfold well_shaped in Hws. rewrite Forall_forall in Hws.
      apply Hws. eapply nth_error_In; exact Ht. }
    assert (Hwin : Forall (fun fr => List.length fr = n) window)
      by (unfold window, slice_to; now apply Forall_firstn_keeps).
    assert (Him0 : List.length (mean_axis0 n window) = n)
      by (unfold mean_axis0; rewrite length_map; now apply sum_axis0_length).
    assert (Em : nth j (mean_axis0 n window) nzero = baseline_mean im baseline j).
    { unfold mean_axis0, baseline_mean, voxel_curve. cbv zeta.
      rewrite (nth_map_in_range _ _ _ nzero) by now rewrite sum_axis0_length.
      rewrite (nth_sum_axis0 Hj Hwin).
      unfold window. rewrite !slice_to_map. rewrite length_map. reflexivity. }
    rewrite (nth_map_in_range _ _ _ [])
      by (rewrite zip_with_length; [exact Htl | now rewrite length_map]).
    rewrite (nth_zip_with _ _ _ [] [] []) by (rewrite ?length_map; exact Htl).
    rewrite (nth_error_nth _ _ [] Ht).
    rewrite (nth_map_in_range _ _ _ []) by exact Htl.
    unfold relative_frame, concentration.
    destruct (String.eqb (strip (upper option)) "ABS").
    + rewrite (nth_map_in_range _ _ _ nzero) by (rewrite zip_with_length; congruence).
      rewrite (nth_zip_with _ _ _ nzero nzero nzero) by congruence.
      now rewrite Em.
    + destruct (String.eqb (strip (upper option)) "REL").
      * rewrite (nth_map_in_range _ _ _ nzero) by (rewrite zip_with_length; congruence).
        rewrite (nth_zip_with _ _ _ nzero nzero nzero) by congruence.
        now rewrite Em.
      * rewrite (nth_map_in_range _ _ _ nzero) by now rewrite repeat_length.
        rewrite nth_repeat_lt by exact Hj. apply clamp_negative_zero.
  - intros HT j. unfold baseline_mean. cbv zeta.
    assert (Hlen : Z.of_nat (List.length (voxel_curve im j)) = series_len im)
      by (unfold voxel_curve, series_len; now rewrite length_map).
    rewrite !slice_to_all by lia. reflexivity.
Qed.

Lemma baseline_length_is_not_checked_witness :
  exists v,
    relative_concentration_map three_sample_series 3 (f64 1) "abs" = Ok v /\
    spatial v = (1, 1, 2) /\
    List.length (frames v) = 3%nat /\
    nth 0 (nth 2 (frames v) []) nzero =
      concentration "abs" (f64 1) (f64 8) (baseline_mean three_sample_series 3 0) /\
    concentration "abs" (f64 1) (f64 8) (baseline_mean three_sample_series 3 0) = f64 4.
Proof.
  destruct (@baseline_length_is_not_checked _ _ three_sample_series 3 (f64 1) "abs")
    as (_ & Hret & _); [repeat constructor|].
  destruct Hret as (v & E & Hs & Hl & Hv); [left; lia|].
  exists v. split; [exact E|]. split; [exact Hs|]. split; [exact Hl|].
  split; [|vm_compute; reflexivity].
  apply (Hv 2%nat [f64 8; f64 1] 0%nat); [reflexivity | vm_compute; lia].
Defined.
